(** * The Python style example [example.py]: model and verified properties

    The module under study,
    [plugins-old/languages/python/templates/example.py], holds a [User]
    dataclass with a [get_display_name] method and three functions:
    [calculate_discount], [validate_email] and [process_user_data].

    The development has two layers.

    - [Py] embeds the fragment of the Python runtime that the module
      relies on: exceptions and results, the dynamically typed values a
      user dictionary may hold, the builtins [str], [int], [bool], [min],
      the string operations [in] and [split], and numbers as an interface
      with an exact (rational) and an IEEE binary64 instance.
    - The functions of [example.py] follow, written line by line after the
      source, and then the properties proved about them.

    Modelling conventions:
    - a [dict] is a stdpp [gmap] from strings to values;
    - [str] values are Standard Library strings read as ASCII text;
    - [int] is [Z]; the interpreter's optional limit on the number of digits
      in int/str conversions is taken to be switched off;
    - a raised exception is a [Raise] result that aborts the rest of the
      computation. *)

From Stdlib Require Import ZArith QArith Qminmax Floats String Ascii List Lia Lqa
  DecimalString DecimalPos.
From stdpp Require Import gmap strings.

Module Py.

(** ** Exceptions and results *)

(** The exceptions the module can meet: [ValueError] with its message and
    [KeyError] with the missing key. *)
Inductive exn : Type :=
| ValueError (msg : string)
| KeyError (key : string).

Inductive result (A : Type) : Type :=
| Ok (a : A)
| Raise (e : exn).
Arguments Ok {A} a.
Arguments Raise {A} e.

Definition bind {A B : Type} (r : result A) (k : A -> result B) : result B :=
  match r with
  | Ok a => k a
  | Raise e => Raise e
  end.

Definition raises {A : Type} (r : result A) : Prop :=
  match r with
  | Ok _ => False
  | Raise _ => True
  end.

(** ** Strings *)

Definition is_empty (s : string) : bool :=
  match s with
  | EmptyString => true
  | String _ _ => false
  end.

(** [c in s] for a one-character pattern [c]. *)
Fixpoint contains (c : ascii) (s : string) : bool :=
  match s with
  | EmptyString => false
  | String x rest => if Ascii.eqb x c then true else contains c rest
  end.

(** [s.split(sep)] for a one-character separator: the maximal pieces of [s]
    between occurrences of [sep]; the empty string gives one empty piece. *)
Fixpoint split (sep : ascii) (s : string) : list string :=
  match s with
  | EmptyString => [EmptyString]
  | String x rest =>
      if Ascii.eqb x sep then EmptyString :: split sep rest
      else match split sep rest with
           | [] => [String x EmptyString]
           | piece :: pieces => String x piece :: pieces
           end
  end.

(** Unpacking a sequence into exactly two targets, [a, b = xs]. *)
Definition unpack2 {A : Type} (xs : list A) : result (A * A) :=
  match xs with
  | [a; b] => Ok (a, b)
  | [] | [_] =>
      Raise (ValueError
        ("not enough values to unpack (expected 2, got "
           +:+ NilZero.string_of_uint (Nat.to_uint (length xs)) +:+ ")"))
  | _ => Raise (ValueError "too many values to unpack (expected 2)")
  end.

(** ** Values of a user dictionary and the coercions [str], [int], [bool] *)

Inductive value : Type :=
| VStr (s : string)
| VInt (n : Z)
| VBool (b : bool).

(** [str(v)]. *)
Definition py_str (v : value) : string :=
  match v with
  | VStr s => s
  | VInt n => NilZero.string_of_int (Z.to_int n)
  | VBool true => "True"
  | VBool false => "False"
  end.

(** [bool(v)]: the truth value of an object. *)
Definition py_bool (v : value) : bool :=
  match v with
  | VStr s => negb (is_empty s)
  | VInt n => negb (n =? 0)%Z
  | VBool b => b
  end.

(** White space skipped by [int] around a literal. *)
Definition is_space (c : ascii) : bool :=
  let n := nat_of_ascii c in
  ((9 <=? n) && (n <=? 13)) || (n =? 32).

Definition is_digit (c : ascii) : bool :=
  let n := nat_of_ascii c in (48 <=? n) && (n <=? 57).

Definition digit_val (c : ascii) : Z := Z.of_nat (nat_of_ascii c - 48).

Fixpoint lstrip (s : string) : string :=
  match s with
  | EmptyString => EmptyString
  | String c rest => if is_space c then lstrip rest else s
  end.

Fixpoint rstrip (s : string) : string :=
  match s with
  | EmptyString => EmptyString
  | String c rest =>
      let rest' := rstrip rest in
      if is_space c && is_empty rest' then EmptyString else String c rest'
  end.

(** The digits of a base-10 literal after its first digit; a single
    underscore may separate two digits. *)
Fixpoint digits_from (acc : Z) (s : string) : option Z :=
  match s with
  | EmptyString => Some acc
  | String c rest =>
      if is_digit c then digits_from (10 * acc + digit_val c) rest
      else if Ascii.eqb c "_" then
        match rest with
        | String d rest' =>
            if is_digit d then digits_from (10 * acc + digit_val d) rest'
            else None
        | EmptyString => None
        end
      else None
  end.

Definition digits (s : string) : option Z :=
  match s with
  | String c rest => if is_digit c then digits_from (digit_val c) rest else None
  | EmptyString => None
  end.

(** A base-10 integer literal: optional surrounding white space, an
    optional sign, then digits. *)
Definition int_of_literal (s : string) : option Z :=
  match rstrip (lstrip s) with
  | String "-" body => Z.opp <$> digits body
  | String "+" body => digits body
  | body => digits body
  end.

Definition hex_digit (n : nat) : ascii :=
  if n <? 10 then ascii_of_nat (48 + n) else ascii_of_nat (87 + n).

Definition escape_char (quote c : ascii) : string :=
  let n := nat_of_ascii c in
  if Ascii.eqb c quote || Ascii.eqb c "\" then String "\" (String c EmptyString)
  else if n =? 9 then "\t"
  else if n =? 10 then "\n"
  else if n =? 13 then "\r"
  else if (n <? 32) || (n =? 127) then
    String "\" (String "x"
      (String (hex_digit (n / 16)) (String (hex_digit (n mod 16)) EmptyString)))
  else String c EmptyString.

Fixpoint escape (quote : ascii) (s : string) : string :=
  match s with
  | EmptyString => EmptyString
  | String c rest => escape_char quote c +:+ escape quote rest
  end.

(** [repr(s)] of a string: single quotes unless the text holds a single
    quote and no double quote. *)
Definition py_repr (s : string) : string :=
  let quote : ascii :=
    if contains "'" s && negb (contains "034" s) then "034"%char
    else "'"%char in
  String quote (escape quote s) +:+ String quote EmptyString.

(** [int(v)]; a string that is no literal raises [ValueError], whose message
    shows at most 200 characters of the argument's [repr]. *)
Definition py_int (v : value) : result Z :=
  match v with
  | VInt n => Ok n
  | VBool b => Ok (if b then 1 else 0)%Z
  | VStr s =>
      match int_of_literal s with
      | Some n => Ok n
      | None =>
          Raise (ValueError ("invalid literal for int() with base 10: "
                               +:+ substring 0 200 (py_repr s)))
      end
  end.

(** [d[key]]: a missing key raises [KeyError]. *)
Definition getitem (d : gmap string value) (key : string) : result value :=
  match d !! key with
  | Some v => Ok v
  | None => Raise (KeyError key)
  end.

(** [d.get(key, default)]. *)
Definition get (d : gmap string value) (key : string) (def : value) : value :=
  match d !! key with
  | Some v => v
  | None => def
  end.

(** ** Numbers

    [calculate_discount] uses its arguments only through comparison with
    and division by integer literals, [*], [-] and [min]; any number type
    offering these can be passed. *)
Class Number (A : Type) : Type := {
  of_int : Z -> A;
  ltb : A -> A -> bool;
  leb : A -> A -> bool;
  mul : A -> A -> A;
  div : A -> A -> A;
  sub : A -> A -> A
}.

(** [min(a, b)]: the first argument unless the second is smaller. *)
Definition py_min {A : Type} `{Number A} (a b : A) : A :=
  if ltb b a then b else a.

(** Exact rational arithmetic ([fractions.Fraction]). *)
#[export] Instance Number_Q : Number Q := {
  of_int := inject_Z;
  ltb x y := negb (Qle_bool y x);
  leb := Qle_bool;
  mul := Qmult;
  div := Qdiv;
  sub := Qminus
}.

(** IEEE 754 binary64 arithmetic ([float]).  The conversion of an integer
    literal is exact below [2^53]; the module only uses [0] and [100]. *)
Definition float_of_int (z : Z) : float :=
  match z with
  | Z0 => PrimFloat.zero
  | Zpos _ => PrimFloat.of_uint63 (Uint63.of_Z z)
  | Zneg p => PrimFloat.opp (PrimFloat.of_uint63 (Uint63.of_Z (Zpos p)))
  end.

#[export] Instance Number_float : Number float := {
  of_int := float_of_int;
  ltb := PrimFloat.ltb;
  leb := PrimFloat.leb;
  mul := PrimFloat.mul;
  div := PrimFloat.div;
  sub := PrimFloat.sub
}.

End Py.

Import Py.

(** Sequencing is written [x ← c; k]: a raised exception skips [k]. *)
#[export] Instance result_bind : MBind result := fun A B k r => bind r k.

(** * The module [example.py] *)

Module Example.

(** The dataclass [User]; [active] defaults to [True]. *)
Record User : Type := {
  id : Z;
  name : string;
  email : string;
  active : bool
}.

(** [User.get_display_name]: instances of the dataclass are mutable, so a
    method is a function from the state of [self] to its result and the
    state of [self] after the call. *)
Definition get_display_name (self : User) : string * User :=
  (name self +:+ " (" +:+ email self +:+ ")", self).

(** The two [ValueError]s of [calculate_discount]. *)
Definition negative_price : exn := ValueError "Price cannot be negative".
Definition percent_out_of_range : exn :=
  ValueError "Discount percent must be between 0 and 100".

Definition calculate_discount {A : Type} `{Number A}
    (price discount_percent : A) (max_discount : option A) : result A :=
  if ltb price (of_int 0) then Raise negative_price
  else if negb (leb (of_int 0) discount_percent
                && leb discount_percent (of_int 100))
  then Raise percent_out_of_range
  else
    let discount_amount := mul price (div discount_percent (of_int 100)) in
    let discount_amount :=
      match max_discount with
      | Some limit => py_min discount_amount limit
      | None => discount_amount
      end in
    Ok (sub price discount_amount).

Definition validate_email (email : string) : result bool :=
  if is_empty email || negb (contains "@" email) then Ok false
  else
    let parts := split "@" email in
    if negb (length parts =? 2) then Ok false
    else
      '(local, domain) ← unpack2 parts;
      Ok ((0 <? String.length local) && contains "." domain).

Definition required_fields : list string := ["id"; "name"; "email"].

(** The [ValueError]s of [process_user_data]. *)
Definition missing_field (field : string) : exn :=
  ValueError ("Missing required field: " +:+ field).
Definition invalid_email (email : string) : exn :=
  ValueError ("Invalid email format: " +:+ email).

(** The loop over [required_fields]: the first absent one aborts. *)
Fixpoint check_fields (fields : list string) (user_data : gmap string value)
    : result unit :=
  match fields with
  | [] => Ok tt
  | field :: rest =>
      match user_data !! field with
      | None => Raise (missing_field field)
      | Some _ => check_fields rest user_data
      end
  end.

Definition process_user_data (user_data : gmap string value) : result User :=
  _ ← check_fields required_fields user_data;
  email_value ← getitem user_data "email";
  let email := py_str email_value in
  valid ← validate_email email;
  if negb valid then Raise (invalid_email email)
  else
    id_value ← getitem user_data "id";
    id ← py_int id_value;
    name_value ← getitem user_data "name";
    Ok {| id := id;
          name := py_str name_value;
          email := email;
          active := py_bool (get user_data "active" (VBool true)) |}.

End Example.

Import Example.

(** * Vocabulary of the statements *)

(** [sep.join(pieces)], the inverse of [split]. *)
Fixpoint join (sep : ascii) (pieces : list string) : string :=
  match pieces with
  | [] => EmptyString
  | [piece] => piece
  | piece :: rest => piece +:+ String sep (join sep rest)
  end.

(** Number of occurrences of a character. *)
Fixpoint count_char (c : ascii) (s : string) : nat :=
  match s with
  | EmptyString => 0
  | String x rest => (if Ascii.eqb x c then 1 else 0) + count_char c rest
  end.

(** The dictionaries of the doctests and of the test suite. *)
Definition bob_data : gmap string value :=
  <["id" := VInt 1]> (<["name" := VStr "Bob"]>
    (<["email" := VStr "bob@example.com"]> ∅)).

Definition alice_data : gmap string value :=
  <["id" := VInt 1]> (<["name" := VStr "Alice"]>
    (<["email" := VStr "alice@example.com"]> (<["active" := VBool true]> ∅))).

(** A dictionary whose name is the empty string. *)
Definition nameless_data : gmap string value :=
  <["id" := VInt 1]> (<["name" := VStr EmptyString]>
    (<["email" := VStr "a@b.c"]> ∅)).

(** A dictionary without [id] whose address has no [@]. *)
Definition anonymous_data : gmap string value :=
  <["name" := VStr "Alice"]> (<["email" := VStr "invalid-email"]> ∅).

(** A complete dictionary whose address has no [@]. *)
Definition invalid_email_data : gmap string value :=
  <["id" := VInt 1]> (<["name" := VStr "Alice"]>
    (<["email" := VStr "invalid-email"]> ∅)).

(** A complete dictionary whose [id] is text that is no integer literal. *)
Definition abc_data : gmap string value :=
  <["id" := VStr "abc"]> (<["name" := VStr "Bob"]>
    (<["email" := VStr "bob@example.com"]> ∅)).

Definition bob : User :=
  {| id := 1; name := "Bob"; email := "bob@example.com"; active := true |}.

(** ** Vocabulary for binary64 rounding

    The Standard Library specifies the operations on [float] through
    [Prim2SF] and the functions of [SpecFloat]; the following notions state
    bounds on them. *)

(** [shr_bound r B]: the number held by the shift record [r], a mantissa
    with its round and sticky bits, is at most the integer [B]. *)
Definition shr_bound (r : shr_record) (B : Z) : Prop :=
  (0 <= shr_m r <= B)%Z /\ (shr_r r || shr_s r = true -> (shr_m r < B)%Z).

(** [below p x]: [x] is a zero, or a positive finite number at most [p]. *)
Definition below (p x : spec_float) : Prop :=
  match x with
  | S754_zero _ => True
  | S754_finite false _ _ => SFleb x p = true
  | _ => False
  end.

(** A zero, or a positive finite number. *)
Definition finite_nonneg (x : spec_float) : Prop :=
  match x with
  | S754_zero _ => True
  | S754_finite false _ _ => True
  | _ => False
  end.

(** The numbers [1.0] and [100.0]. *)
Definition one_sf : spec_float := S754_finite false 4503599627370496 (-52).
Definition hundred_sf : spec_float :=
  S754_finite false 7036874417766400 (-46).

(** * Strings: [in] and [split] *)

Section StringFacts.

Variable sep : ascii.

Lemma split_not_nil (s : string) : split sep s <> [].
Proof.
  destruct s as [|x rest]; simpl; [discriminate|].
  destruct (Ascii.eqb x sep); [discriminate|].
  destruct (split sep rest); discriminate.
Qed.

Lemma contains_count (s : string) :
  contains sep s = true <-> 0 < count_char sep s.
Proof.
  induction s as [|x rest IH]; simpl.
  - split; [discriminate | lia].
  - destruct (Ascii.eqb x sep); simpl; [split; [lia | reflexivity] | exact IH].
Qed.

Lemma contains_app (s t : string) :
  contains sep (s +:+ t) = contains sep s || contains sep t.
Proof.
  induction s as [|x rest IH]; simpl; [reflexivity|].
  destruct (Ascii.eqb x sep); [reflexivity | exact IH].
Qed.

(** A text without the separator is its own single piece. *)
Lemma split_no_sep (s : string) :
  contains sep s = false -> split sep s = [s].
Proof.
  induction s as [|x rest IH]; simpl; [reflexivity|].
  destruct (Ascii.eqb x sep); [discriminate|].
  intros H. rewrite (IH H). reflexivity.
Qed.

(** Splitting at the first separator. *)
Lemma split_app (s t : string) :
  contains sep s = false ->
  split sep (s +:+ String sep t) = s :: split sep t.
Proof.
  induction s as [|x rest IH]; simpl.
  - intros _. rewrite Ascii.eqb_refl. reflexivity.
  - destruct (Ascii.eqb x sep); [discriminate|].
    intros H. rewrite (IH H). reflexivity.
Qed.

(** No piece holds the separator. *)
Lemma split_pieces (s : string) :
  Forall (fun piece => contains sep piece = false) (split sep s).
Proof.
  induction s as [|x rest IH]; simpl.
  - constructor; [reflexivity | constructor].
  - destruct (Ascii.eqb x sep) eqn:E.
    + constructor; [reflexivity | exact IH].
    + pose proof (split_not_nil rest) as Hne.
      destruct (split sep rest) as [|piece pieces]; [congruence|].
      inversion IH as [|? ? Hp Hps]; subst.
      constructor; [simpl; rewrite E; exact Hp | exact Hps].
Qed.

Lemma join_cons (p q : string) (r : list string) :
  join sep (p :: q :: r) = p +:+ String sep (join sep (q :: r)).
Proof. reflexivity. Qed.

(** Joining the pieces gives the text back. *)
Lemma join_split (s : string) : join sep (split sep s) = s.
Proof.
  induction s as [|x rest IH]; [reflexivity|].
  pose proof (split_not_nil rest) as Hne.
  cbn [split].
  destruct (Ascii.eqb x sep) eqn:E.
  - apply Ascii.eqb_eq in E. subst x.
    destruct (split sep rest) as [|piece pieces]; [congruence|].
    rewrite join_cons, IH. reflexivity.
  - destruct (split sep rest) as [|piece pieces]; [congruence|].
    destruct pieces as [|piece' pieces'].
    + cbn [join] in *. f_equal. exact IH.
    + rewrite join_cons in *. rewrite <- IH. reflexivity.
Qed.

(** There is one more piece than there are separators. *)
Lemma length_split (s : string) :
  length (split sep s) = S (count_char sep s).
Proof.
  induction s as [|x rest IH]; simpl; [reflexivity|].
  destruct (Ascii.eqb x sep); simpl.
  - f_equal. exact IH.
  - pose proof (split_not_nil rest) as Hne.
    destruct (split sep rest) as [|piece pieces]; [congruence|].
    exact IH.
Qed.

(** Exactly two pieces: the text is [l], one separator, [d]. *)
Lemma split_two (s l d : string) :
  split sep s = [l; d] <->
  s = l +:+ String sep d /\ contains sep l = false /\ contains sep d = false.
Proof.
  split.
  - intros H.
    pose proof (join_split s) as Hj.
    pose proof (split_pieces s) as Hp.
    rewrite H in Hj, Hp.
    apply Forall_cons in Hp as [Hl Hp].
    apply Forall_cons in Hp as [Hd _].
    rewrite join_cons in Hj. cbn [join] in Hj. auto.
  - intros (-> & Hl & Hd).
    rewrite (split_app _ _ Hl), (split_no_sep _ Hd). reflexivity.
Qed.

End StringFacts.

(** * [validate_email] *)

Lemma is_empty_true (s : string) : is_empty s = true <-> s = EmptyString.
Proof. destruct s; simpl; split; congruence. Qed.

(** The result in closed form: the guards of the function only shortcut
    cases in which the pieces are not two. *)
Lemma validate_email_eq (email : string) :
  validate_email email =
  Ok match split "@" email with
     | [local; domain] => negb (is_empty local) && contains "." domain
     | _ => false
     end.
Proof.
  unfold validate_email.
  destruct (is_empty email) eqn:He.
  - apply is_empty_true in He. subst email. reflexivity.
  - destruct (contains "@" email) eqn:Hc; cbn [negb orb].
    + destruct (split "@" email) as [|l [|d [|x rest]]]; cbn; try reflexivity.
      destruct l; reflexivity.
    + rewrite (split_no_sep _ _ Hc). reflexivity.
Qed.

(** A valid address is a non-empty local part without [@], one [@], and a
    domain without [@] that holds a dot. *)
Lemma validate_email_shape (email : string) :
  validate_email email = Ok true <->
  exists local domain,
    email = local +:+ String "@" domain /\
    local <> EmptyString /\
    contains "@" local = false /\
    contains "@" domain = false /\
    contains "." domain = true.
Proof.
  rewrite validate_email_eq. split.
  - destruct (split "@" email) as [|l [|d [|x rest]]] eqn:Hs; try discriminate.
    intros H. injection H as H. apply andb_true_iff in H as [Hl Hd].
    apply split_two in Hs as (He & Hl' & Hd').
    exists l, d. repeat split; auto.
    intros ->. discriminate.
  - intros (l & d & He & Hl & Hl' & Hd' & Hd).
    assert (Hs : split "@" email = [l; d]) by (apply split_two; auto).
    rewrite Hs, Hd. destruct l; [congruence | reflexivity].
Qed.

(** C3. [validate_email] never raises; it answers [True] exactly when the
    address contains [@], splitting it on [@] gives exactly two parts, the
    first part is not empty and the second part contains a dot; the empty
    string is answered [False]. *)
Theorem validate_email_spec :
  (forall email : string,
     (exists b, validate_email email = Ok b) /\
     (validate_email email = Ok true <->
      contains "@" email = true /\
      length (split "@" email) = 2 /\
      exists local domain,
        split "@" email = [local; domain] /\
        local <> EmptyString /\
        contains "." domain = true)) /\
  validate_email EmptyString = Ok false.
Proof.
  split; [|reflexivity].
  intros email. split.
  - rewrite validate_email_eq. eauto.
  - rewrite validate_email_shape. split.
    + intros (l & d & He & Hl & Hl' & Hd' & Hd).
      assert (Hs : split "@" email = [l; d]) by (apply split_two; auto).
      split; [|split].
      * subst email. rewrite contains_app. simpl. apply orb_true_r.
      * rewrite Hs. reflexivity.
      * exists l, d. auto.
    + intros (_ & _ & l & d & Hs & Hl & Hd).
      apply split_two in Hs as (He & Hl' & Hd').
      exists l, d. auto.
Qed.

(** The doctests and the test-suite cases of [validate_email]. *)
Example validate_email_examples :
  validate_email "user@example.com" = Ok true /\
  validate_email "alice.smith@company.co.uk" = Ok true /\
  validate_email "test+tag@domain.org" = Ok true /\
  validate_email "invalid-email" = Ok false /\
  validate_email "@example.com" = Ok false /\
  validate_email "user@" = Ok false /\
  validate_email "user@@example.com" = Ok false.
Proof. repeat split; reflexivity. Qed.

(** * [process_user_data] *)

Section UserData.

Implicit Types (user_data : gmap string value) (user : User).

(** The loop passes exactly when every field is present. *)
Lemma check_fields_ok (fields : list string) user_data :
  check_fields fields user_data = Ok tt <->
  Forall (fun field => is_Some (user_data !! field)) fields.
Proof.
  induction fields as [|field rest IH]; simpl.
  - split; [constructor | reflexivity].
  - rewrite Forall_cons. destruct (user_data !! field) as [v|].
    + rewrite IH. split; [eauto | tauto].
    + split; [discriminate | intros [[v Hv] _]; discriminate].
Qed.

(** The loop stops at the first absent field. *)
Lemma check_fields_missing (before after : list string) (field : string)
    user_data :
  Forall (fun f => is_Some (user_data !! f)) before ->
  user_data !! field = None ->
  check_fields (before ++ field :: after) user_data
  = Raise (missing_field field).
Proof.
  induction before as [|f rest IH]; simpl; intros Hpre Hf.
  - rewrite Hf. reflexivity.
  - apply Forall_cons in Hpre as [[v Hv] Hpre].
    rewrite Hv. apply IH; assumption.
Qed.

(** What [process_user_data] does once the three fields are present. *)
Lemma process_user_data_present user_data (id_value name_value email_value : value) :
  user_data !! "id" = Some id_value ->
  user_data !! "name" = Some name_value ->
  user_data !! "email" = Some email_value ->
  process_user_data user_data =
  (valid ← validate_email (py_str email_value);
   if negb valid then Raise (invalid_email (py_str email_value))
   else
     id ← py_int id_value;
     Ok {| id := id;
           name := py_str name_value;
           email := py_str email_value;
           active := py_bool (get user_data "active" (VBool true)) |}).
Proof.
  intros Hid Hname Hemail.
  unfold process_user_data, required_fields, getitem. cbn [check_fields].
  rewrite Hid, Hname, Hemail. reflexivity.
Qed.

(** The successful calls. *)
Lemma process_user_data_ok user_data user :
  process_user_data user_data = Ok user <->
  exists id_value name_value email_value n,
    user_data !! "id" = Some id_value /\
    user_data !! "name" = Some name_value /\
    user_data !! "email" = Some email_value /\
    validate_email (py_str email_value) = Ok true /\
    py_int id_value = Ok n /\
    user = {| id := n;
              name := py_str name_value;
              email := py_str email_value;
              active := py_bool (get user_data "active" (VBool true)) |}.
Proof.
  split.
  - destruct (user_data !! "id") as [id_value|] eqn:Hid;
      [|unfold process_user_data, required_fields; cbn [check_fields];
        rewrite Hid; discriminate].
    destruct (user_data !! "name") as [name_value|] eqn:Hname;
      [|unfold process_user_data, required_fields; cbn [check_fields];
        rewrite Hid, Hname; discriminate].
    destruct (user_data !! "email") as [email_value|] eqn:Hemail;
      [|unfold process_user_data, required_fields; cbn [check_fields];
        rewrite Hid, Hname, Hemail; discriminate].
    rewrite (process_user_data_present _ _ _ _ Hid Hname Hemail).
    destruct (validate_email (py_str email_value)) as [[|]|e] eqn:Hvalid;
      cbn; try discriminate.
    destruct (py_int id_value) as [n|e] eqn:Hint; cbn; [|discriminate].
    intros [= <-]. exists id_value, name_value, email_value, n.
    repeat split; reflexivity || assumption.
  - intros (id_value & name_value & email_value & n
            & Hid & Hname & Hemail & Hvalid & Hint & ->).
    rewrite (process_user_data_present _ _ _ _ Hid Hname Hemail).
    rewrite Hvalid. cbn. rewrite Hint. reflexivity.
Qed.

End UserData.

(** ** The name of a constructed user *)

Lemma string_of_int_nonempty (n : Z) :
  NilZero.string_of_int (Z.to_int n) <> EmptyString.
Proof.
  destruct n as [|p|p]; cbn; try discriminate.
  unfold NilZero.string_of_uint. destruct (Pos.to_uint p); discriminate.
Qed.

(** Only the empty string has an empty [str]. *)
Lemma py_str_empty (v : value) :
  py_str v = EmptyString <-> v = VStr EmptyString.
Proof.
  destruct v as [s|n|[|]]; cbn; split; try congruence; try discriminate.
  intros H. destruct (string_of_int_nonempty n H).
Qed.

(** C2, counterexample. A dictionary whose name is the empty string is
    accepted, and the constructed user has the empty name: names are not
    checked. *)
Lemma process_user_data_empty_name :
  process_user_data nameless_data
  = Ok {| id := 1; name := EmptyString; email := "a@b.c"; active := true |} /\
  ~ (forall (user_data : gmap string value) (user : User),
       process_user_data user_data = Ok user -> name user <> EmptyString).
Proof.
  assert (H : process_user_data nameless_data
              = Ok {| id := 1; name := EmptyString; email := "a@b.c";
                      active := true |}) by (vm_compute; reflexivity).
  split; [exact H|].
  intros Hall. exact (Hall _ _ H eq_refl).
Qed.

(** C2, amended. The name of a constructed user is the [str] of the
    dictionary's [name] value; it is empty exactly when that value is the
    empty string. *)
Theorem process_user_data_name (user_data : gmap string value) (user : User) :
  process_user_data user_data = Ok user ->
  exists name_value,
    user_data !! "name" = Some name_value /\
    name user = py_str name_value /\
    (name user = EmptyString <-> name_value = VStr EmptyString).
Proof.
  intros H. apply process_user_data_ok in H
    as (id_value & name_value & email_value & n & _ & Hname & _ & _ & _ & ->).
  exists name_value. cbn. split; [exact Hname|].
  split; [reflexivity | apply py_str_empty].
Qed.

Lemma process_user_data_name_witness :
  exists name_value,
    bob_data !! "name" = Some name_value /\
    name bob = py_str name_value /\
    (name bob = EmptyString <-> name_value = VStr EmptyString).
Proof.
  apply (process_user_data_name bob_data bob). vm_compute. reflexivity.
Defined.

(** ** Missing fields *)

Lemma missing_field_not_invalid_email (field e : string) :
  missing_field field <> invalid_email e.
Proof. discriminate. Qed.

(** C4. A dictionary that lacks one of [id], [name], [email] is rejected with
    the missing-field error of the first absent key in that order, whatever
    its address looks like: the error is never the invalid-email one. *)
Theorem process_user_data_missing (user_data : gmap string value) :
  user_data !! "id" = None \/ user_data !! "name" = None
    \/ user_data !! "email" = None ->
  exists field,
    find (fun f => bool_decide (user_data !! f = None)) ["id"; "name"; "email"]
      = Some field /\
    process_user_data user_data = Raise (missing_field field) /\
    forall e, process_user_data user_data <> Raise (invalid_email e).
Proof.
  intros Hmiss.
  assert (Hgoal : exists field,
    find (fun f => bool_decide (user_data !! f = None)) ["id"; "name"; "email"]
      = Some field /\
    check_fields required_fields user_data = Raise (missing_field field)).
  { unfold required_fields. cbn [find check_fields].
    destruct (user_data !! "id") as [v1|];
      [rewrite bool_decide_eq_false_2 by discriminate
      |rewrite bool_decide_eq_true_2 by reflexivity; eauto].
    destruct (user_data !! "name") as [v2|];
      [rewrite bool_decide_eq_false_2 by discriminate
      |rewrite bool_decide_eq_true_2 by reflexivity; eauto].
    destruct (user_data !! "email") as [v3|];
      [|rewrite bool_decide_eq_true_2 by reflexivity; eauto].
    destruct Hmiss as [H|[H|H]]; discriminate. }
  destruct Hgoal as (field & Hfind & Hcheck).
  assert (Hres : process_user_data user_data = Raise (missing_field field)).
  { unfold process_user_data. rewrite Hcheck. reflexivity. }
  exists field. split; [exact Hfind|]. split; [exact Hres|].
  intros e. rewrite Hres. intros H.
  apply (missing_field_not_invalid_email field e). congruence.
Qed.

Lemma process_user_data_missing_witness :
  exists field,
    find (fun f => bool_decide (anonymous_data !! f = None))
      ["id"; "name"; "email"] = Some field /\
    process_user_data anonymous_data = Raise (missing_field field) /\
    forall e, process_user_data anonymous_data <> Raise (invalid_email e).
Proof.
  apply (process_user_data_missing anonymous_data). left. reflexivity.
Defined.

(** The cases of the test suite. *)
Example process_user_data_missing_examples :
  process_user_data (delete "id" alice_data) = Raise (missing_field "id") /\
  process_user_data (delete "name" alice_data) = Raise (missing_field "name") /\
  process_user_data (delete "email" alice_data) = Raise (missing_field "email") /\
  process_user_data anonymous_data = Raise (missing_field "id") /\
  missing_field "id" = ValueError "Missing required field: id".
Proof. repeat split; vm_compute; reflexivity. Qed.

(** ** The address of a constructed user *)

(** C7. The address of a constructed user passed [validate_email]; and a
    dictionary that has the three required keys and whose address, once
    coerced with [str], fails [validate_email] is rejected with the
    invalid-email error carrying that address. *)
Theorem process_user_data_email :
  (forall (user_data : gmap string value) (user : User),
     process_user_data user_data = Ok user ->
     validate_email (email user) = Ok true /\
     exists email_value,
       user_data !! "email" = Some email_value /\
       email user = py_str email_value) /\
  (forall (user_data : gmap string value) (email_value : value),
     is_Some (user_data !! "id") ->
     is_Some (user_data !! "name") ->
     user_data !! "email" = Some email_value ->
     validate_email (py_str email_value) = Ok false ->
     process_user_data user_data = Raise (invalid_email (py_str email_value))).
Proof.
  split.
  - intros user_data user H. apply process_user_data_ok in H
      as (id_value & name_value & email_value & n
          & _ & _ & Hemail & Hvalid & _ & ->).
    cbn. eauto.
  - intros user_data email_value [id_value Hid] [name_value Hname] Hemail Hvalid.
    rewrite (process_user_data_present _ _ _ _ Hid Hname Hemail).
    rewrite Hvalid. reflexivity.
Qed.

Lemma process_user_data_email_witness :
  (validate_email (email bob) = Ok true /\
   exists email_value,
     bob_data !! "email" = Some email_value /\
     email bob = py_str email_value) /\
  process_user_data invalid_email_data = Raise (invalid_email "invalid-email").
Proof.
  split.
  - apply (proj1 process_user_data_email bob_data bob). vm_compute. reflexivity.
  - apply (proj2 process_user_data_email invalid_email_data
             (VStr "invalid-email")).
    + exists (VInt 1). reflexivity.
    + exists (VStr "Alice"). reflexivity.
    + reflexivity.
    + reflexivity.
Defined.

(** A rejected address is never accepted, whichever keys are present. *)
Lemma process_user_data_bad_email (user_data : gmap string value)
    (email_value : value) :
  user_data !! "email" = Some email_value ->
  validate_email (py_str email_value) = Ok false ->
  raises (process_user_data user_data).
Proof.
  intros Hemail Hvalid.
  destruct (process_user_data user_data) as [user|e] eqn:H; [|exact I].
  apply process_user_data_ok in H
    as (id_value & name_value & v & n & _ & _ & Hv & Hok & _).
  congruence.
Qed.

(** ** The [active] flag *)

(** C8. A constructed user is active when the dictionary has no [active]
    key, and otherwise has the truth value of the [active] entry. *)
Theorem process_user_data_active (user_data : gmap string value) (user : User) :
  process_user_data user_data = Ok user ->
  (user_data !! "active" = None -> active user = true) /\
  (forall v, user_data !! "active" = Some v -> active user = py_bool v).
Proof.
  intros H. apply process_user_data_ok in H
    as (id_value & name_value & email_value & n & _ & _ & _ & _ & _ & ->).
  cbn. unfold get. split.
  - intros ->. reflexivity.
  - intros v ->. reflexivity.
Qed.

Lemma process_user_data_active_witness :
  (bob_data !! "active" = None -> active bob = true) /\
  (forall v, bob_data !! "active" = Some v -> active bob = py_bool v).
Proof.
  apply (process_user_data_active bob_data bob). vm_compute. reflexivity.
Defined.

(** The doctest and the test-suite cases, and entries of other types. *)
Example process_user_data_examples :
  process_user_data bob_data = Ok bob /\
  process_user_data alice_data
  = Ok {| id := 1; name := "Alice"; email := "alice@example.com";
          active := true |} /\
  process_user_data (<["active" := VInt 0]> bob_data)
  = Ok {| id := 1; name := "Bob"; email := "bob@example.com";
          active := false |} /\
  process_user_data (<["active" := VStr "no"]> bob_data) = Ok bob /\
  process_user_data (<["id" := VStr " +4_2 "]> bob_data)
  = Ok {| id := 42; name := "Bob"; email := "bob@example.com";
          active := true |} /\
  process_user_data invalid_email_data
  = Raise (ValueError "Invalid email format: invalid-email").
Proof. repeat split; vm_compute; reflexivity. Qed.

(** ** Errors of the coercions *)

(** The error of [int] is neither of the errors [process_user_data] and
    [calculate_discount] raise themselves. *)
Lemma py_int_error (v : value) (e : exn) :
  py_int v = Raise e ->
  (forall field, e <> missing_field field) /\
  (forall address, e <> invalid_email address) /\
  e <> negative_price /\ e <> percent_out_of_range.
Proof.
  destruct v as [s|n|b]; cbn; try discriminate.
  destruct (int_of_literal s); [discriminate|].
  intros [= <-]. repeat split; try intros ?; discriminate.
Qed.

(** C9. A dictionary with the three required keys and an address that passes
    [validate_email] can still be rejected, with an error that is none of
    missing-field, invalid-email and the two argument errors: with
    [id = "abc"] the coercion [int] raises its own [ValueError]. *)
Theorem process_user_data_unclassified :
  exists (user_data : gmap string value) (e : exn),
    user_data !! "id" = Some (VStr "abc") /\
    is_Some (user_data !! "name") /\
    (exists email_value,
       user_data !! "email" = Some email_value /\
       validate_email (py_str email_value) = Ok true) /\
    process_user_data user_data = Raise e /\
    e = ValueError "invalid literal for int() with base 10: 'abc'" /\
    (forall field, e <> missing_field field) /\
    (forall address, e <> invalid_email address) /\
    e <> negative_price /\ e <> percent_out_of_range.
Proof.
  exists abc_data,
    (ValueError "invalid literal for int() with base 10: 'abc'").
  split; [reflexivity|].
  split; [exists (VStr "Bob"); reflexivity|].
  split; [exists (VStr "bob@example.com"); split; reflexivity|].
  split; [vm_compute; reflexivity|].
  split; [reflexivity|].
  apply (py_int_error (VStr "abc")). reflexivity.
Qed.

(** * [User.get_display_name] *)

(** C10. The display name is the name, a space, and the address in
    parentheses; the call leaves the user as it was. *)
Theorem get_display_name_spec (self : User) :
  get_display_name self
  = (name self +:+ " " +:+ "(" +:+ email self +:+ ")", self).
Proof. reflexivity. Qed.

Lemma length_append (s t : string) :
  String.length (s +:+ t) = String.length s + String.length t.
Proof. induction s as [|c s IH]; simpl; [reflexivity | rewrite IH; reflexivity]. Qed.

(** The display name is three characters longer than its two parts. *)
Lemma get_display_name_length (self : User) :
  String.length (fst (get_display_name self))
  = String.length (name self) + String.length (email self) + 3.
Proof.
  unfold get_display_name. cbn [fst].
  rewrite !length_append. simpl. lia.
Qed.

(** The doctest of the method. *)
Example get_display_name_example :
  fst (get_display_name
         {| id := 1; name := "Alice Smith"; email := "alice@example.com";
            active := true |})
  = "Alice Smith (alice@example.com)".
Proof. reflexivity. Qed.

(** * [calculate_discount] *)

(** ** Whatever the numbers are *)

Section Discount.

Context {A : Type} `{Number A}.

Implicit Types (price discount_percent limit : A) (max_discount : option A).

(** The first guard. *)
Lemma calculate_discount_negative price discount_percent max_discount :
  ltb price (of_int 0) = true ->
  calculate_discount price discount_percent max_discount
  = Raise negative_price.
Proof. unfold calculate_discount. intros ->. reflexivity. Qed.

(** The second guard. *)
Lemma calculate_discount_out_of_range price discount_percent max_discount :
  ltb price (of_int 0) = false ->
  leb (of_int 0) discount_percent && leb discount_percent (of_int 100)
    = false ->
  calculate_discount price discount_percent max_discount
  = Raise percent_out_of_range.
Proof. unfold calculate_discount. intros -> ->. reflexivity. Qed.

(** Past the guards. *)
Lemma calculate_discount_valid price discount_percent max_discount :
  ltb price (of_int 0) = false ->
  leb (of_int 0) discount_percent && leb discount_percent (of_int 100)
    = true ->
  calculate_discount price discount_percent max_discount
  = Ok (sub price
          match max_discount with
          | Some limit =>
              py_min (mul price (div discount_percent (of_int 100))) limit
          | None => mul price (div discount_percent (of_int 100))
          end).
Proof.
  unfold calculate_discount. intros -> ->. destruct max_discount; reflexivity.
Qed.

(** The call fails exactly when a guard fires, and then with the error of
    the first guard that does. *)
Lemma calculate_discount_raises price discount_percent max_discount :
  raises (calculate_discount price discount_percent max_discount) <->
  ltb price (of_int 0) = true \/
  leb (of_int 0) discount_percent && leb discount_percent (of_int 100)
    = false.
Proof.
  destruct (ltb price (of_int 0)) eqn:Hp.
  - rewrite calculate_discount_negative by assumption. simpl. tauto.
  - destruct (leb (of_int 0) discount_percent
              && leb discount_percent (of_int 100)) eqn:Hd.
    + rewrite calculate_discount_valid by assumption. simpl.
      split; [tauto | intros [?|?]; discriminate].
    + rewrite calculate_discount_out_of_range by assumption. simpl. tauto.
Qed.

Lemma calculate_discount_error price discount_percent max_discount (e : exn) :
  calculate_discount price discount_percent max_discount = Raise e ->
  e = negative_price \/ e = percent_out_of_range.
Proof.
  unfold calculate_discount.
  destruct (ltb price (of_int 0)); [intros [= <-]; auto|].
  destruct (leb (of_int 0) discount_percent
            && leb discount_percent (of_int 100)); cbn [negb].
  - discriminate.
  - intros [= <-]. auto.
Qed.

End Discount.

(** ** Exact arithmetic *)

Lemma Q_leb_le (x y : Q) : leb x y = true <-> (x <= y)%Q.
Proof. apply Qle_bool_iff. Qed.

Lemma Q_ltb_lt (x y : Q) : ltb x y = true <-> (x < y)%Q.
Proof.
  cbn. rewrite negb_true_iff, <- not_true_iff_false, Qle_bool_iff.
  split; [apply Qnot_le_lt | apply Qlt_not_le].
Qed.

Lemma Q_ltb_ge (x y : Q) : ltb x y = false <-> (y <= x)%Q.
Proof. cbn. rewrite negb_false_iff. apply Qle_bool_iff. Qed.

Lemma Q_range (x : Q) :
  leb (of_int 0) x && leb x (of_int 100) = true <-> (0 <= x /\ x <= 100)%Q.
Proof. rewrite andb_true_iff, !Q_leb_le. reflexivity. Qed.

(** [min] is the smaller of its two arguments. *)
Lemma Q_py_min (a b : Q) : (py_min a b == Qmin a b)%Q.
Proof.
  unfold py_min. destruct (ltb b a) eqn:E.
  - apply Q_ltb_lt in E. symmetry. apply Q.min_r. apply Qlt_le_weak, E.
  - apply Q_ltb_ge in E. symmetry. apply Q.min_l. exact E.
Qed.

(** The discount before the limit lies between nothing and the price. *)
Lemma Q_discount_amount (price discount_percent : Q) :
  (0 <= price)%Q -> (0 <= discount_percent)%Q -> (discount_percent <= 100)%Q ->
  (0 <= price * (discount_percent / inject_Z 100) <= price)%Q.
Proof.
  intros Hp Hlo Hhi.
  assert (Hq : (discount_percent / inject_Z 100 == discount_percent * (1 # 100))%Q)
    by (unfold Qdiv; reflexivity).
  rewrite Hq. split; nra.
Qed.

(** ** The claims about [calculate_discount] *)

(** The integer literals of the function as binary64 numbers. *)
Lemma float_literals :
  (of_int 0 : float) = 0%float /\ (of_int 100 : float) = 100%float.
Proof. split; vm_compute; reflexivity. Qed.

(** C1, counterexample. A negative limit turns the discount into a surcharge:
    with price 100, 50 percent and limit -10 the result is 110, above the
    price, in binary64 and in exact arithmetic alike.  In binary64 an
    infinite price breaks the bounds too: the result is not a number, which
    is neither at least 0 nor at most the price. *)
Lemma calculate_discount_negative_limit :
  (calculate_discount 100%float 50%float (Some (-10)%float) = Ok 110%float /\
   PrimFloat.leb 110%float 100%float = false) /\
  (exists r : Q,
     calculate_discount 100%Q 50%Q (Some (-10)%Q) = Ok r /\
     (r == 110)%Q /\ ~ (r <= 100)%Q) /\
  ~ (forall (price discount_percent : Q) (max_discount : option Q),
       (0 <= price)%Q ->
       (0 <= discount_percent)%Q -> (discount_percent <= 100)%Q ->
       exists r, calculate_discount price discount_percent max_discount = Ok r
                 /\ (0 <= r)%Q /\ (r <= price)%Q) /\
  (PrimFloat.leb 0%float infinity = true /\
   calculate_discount infinity 50%float None = Ok nan /\
   PrimFloat.leb 0%float nan = false /\
   PrimFloat.leb nan infinity = false).
Proof.
  split; [split; vm_compute; reflexivity|].
  cut ((exists r : Q,
     calculate_discount 100%Q 50%Q (Some (-10)%Q) = Ok r /\
     (r == 110)%Q /\ ~ (r <= 100)%Q) /\
  ~ (forall (price discount_percent : Q) (max_discount : option Q),
       (0 <= price)%Q ->
       (0 <= discount_percent)%Q -> (discount_percent <= 100)%Q ->
       exists r, calculate_discount price discount_percent max_discount = Ok r
                 /\ (0 <= r)%Q /\ (r <= price)%Q)).
  { intros [H1 H2]. split; [exact H1|]. split; [exact H2|].
    repeat split; vm_compute; reflexivity. }
  assert (Hr : exists r : Q,
     calculate_discount 100%Q 50%Q (Some (-10)%Q) = Ok r /\
     (r == 110)%Q /\ ~ (r <= 100)%Q).
  { eexists. split; [vm_compute; reflexivity|].
    split; [reflexivity | intros Hle; vm_compute in Hle; apply Hle; reflexivity]. }
  split; [exact Hr|].
  intros Hall.
  destruct Hr as (r & Hr & _ & Hgt).
  destruct (Hall 100%Q 50%Q (Some (-10)%Q)) as (r' & Hr' & _ & Hle);
    try (vm_compute; discriminate).
  rewrite Hr in Hr'. injection Hr' as <-. exact (Hgt Hle).
Qed.

(** In exact arithmetic, for a price that is not negative, a percentage
    between 0 and 100 and a limit that is absent or not negative, the result
    lies between 0 and the price. *)
Lemma calculate_discount_bounds_exact
    (price discount_percent : Q) (max_discount : option Q) :
  (0 <= price)%Q ->
  (0 <= discount_percent)%Q -> (discount_percent <= 100)%Q ->
  (forall limit, max_discount = Some limit -> (0 <= limit)%Q) ->
  exists r,
    calculate_discount price discount_percent max_discount = Ok r /\
    (0 <= r)%Q /\ (r <= price)%Q.
Proof.
  intros Hp Hlo Hhi Hlimit.
  rewrite calculate_discount_valid
    by (apply Q_ltb_ge || apply Q_range; auto).
  eexists. split; [reflexivity|].
  pose proof (Q_discount_amount price discount_percent Hp Hlo Hhi) as [Hd0 Hd1].
  cbn [sub mul div of_int Number_Q].
  destruct max_discount as [limit|]; [|split; lra].
  specialize (Hlimit limit eq_refl).
  unfold py_min. destruct (ltb limit _) eqn:E.
  - apply Q_ltb_lt in E. cbn [mul div of_int Number_Q] in E. split; lra.
  - split; lra.
Qed.

(** C5. [calculate_discount] fails exactly when the price is below 0 or the
    percentage is not between 0 and 100, and then with one of its two
    argument errors; a negative price is reported first, whatever the
    percentage.  The first part holds for every kind of number, with the
    comparisons of that kind; the second part reads it for exact
    arithmetic. *)
Theorem calculate_discount_invalid_argument :
  (forall (A : Type) (N : Number A) (price discount_percent : A)
          (max_discount : option A),
     ((exists e, calculate_discount price discount_percent max_discount
                 = Raise e) <->
      ltb price (of_int 0) = true \/
      leb (of_int 0) discount_percent && leb discount_percent (of_int 100)
        = false) /\
     (forall e,
        calculate_discount price discount_percent max_discount = Raise e ->
        e = negative_price \/ e = percent_out_of_range) /\
     (ltb price (of_int 0) = true ->
      calculate_discount price discount_percent max_discount
      = Raise negative_price)) /\
  (forall (price discount_percent : Q) (max_discount : option Q),
     ((exists e, calculate_discount price discount_percent max_discount
                 = Raise e) <->
      (price < 0)%Q \/ ~ (0 <= discount_percent /\ discount_percent <= 100)%Q) /\
     ((price < 0)%Q ->
      calculate_discount price discount_percent max_discount
      = Raise negative_price) /\
     ((0 <= price)%Q ->
      ~ (0 <= discount_percent /\ discount_percent <= 100)%Q ->
      calculate_discount price discount_percent max_discount
      = Raise percent_out_of_range)).
Proof.
  assert (Hraise : forall (A : Type) (r : result A),
            (exists e, r = Raise e) <-> raises r).
  { intros A [a|e]; simpl; split; try tauto; eauto. intros [e He]. discriminate. }
  split.
  - intros A N price discount_percent max_discount. split; [|split].
    + rewrite Hraise. apply calculate_discount_raises.
    + apply calculate_discount_error.
    + apply calculate_discount_negative.
  - intros price discount_percent max_discount. split; [|split].
    + rewrite Hraise, calculate_discount_raises, Q_ltb_lt.
      rewrite <- not_true_iff_false, Q_range. reflexivity.
    + intros Hp. apply calculate_discount_negative, Q_ltb_lt, Hp.
    + intros Hp Hd. apply calculate_discount_out_of_range.
      * apply Q_ltb_ge, Hp.
      * apply not_true_iff_false. rewrite Q_range. exact Hd.
Qed.

Lemma calculate_discount_invalid_argument_witness :
  calculate_discount (-10)%float 150%float None = Raise negative_price /\
  calculate_discount (-10)%Q 150%Q None = Raise negative_price /\
  calculate_discount 100%Q 150%Q None = Raise percent_out_of_range.
Proof.
  split; [|split].
  - apply (proj1 calculate_discount_invalid_argument float Number_float).
    vm_compute. reflexivity.
  - apply (proj2 calculate_discount_invalid_argument (-10)%Q 150%Q None).
    vm_compute. reflexivity.
  - apply (proj2 calculate_discount_invalid_argument 100%Q 150%Q None).
    + vm_compute. discriminate.
    + intros [_ Hle]. vm_compute in Hle. apply Hle. reflexivity.
Defined.

(** The failing calls of the test suite, in binary64. *)
Example calculate_discount_invalid_examples :
  calculate_discount (-10)%float 20%float None
  = Raise (ValueError "Price cannot be negative") /\
  calculate_discount 100%float 150%float None
  = Raise (ValueError "Discount percent must be between 0 and 100") /\
  calculate_discount 100%float (-1)%float None = Raise percent_out_of_range /\
  calculate_discount 100%float nan None = Raise percent_out_of_range.
Proof. repeat split; vm_compute; reflexivity. Qed.

(** C6. Past the guards the result is the price minus the discount, the
    discount being [price * (discount_percent / 100)], cut to the limit when
    there is one: for every kind of number with Python's [min], and in exact
    arithmetic with the smaller of the two.  In binary64, 50 percent of 100
    limited to 30 gives 70, and 20 percent of 100 gives 80. *)
Theorem calculate_discount_formula :
  (forall (A : Type) (N : Number A) (price discount_percent : A),
     ltb price (of_int 0) = false ->
     leb (of_int 0) discount_percent && leb discount_percent (of_int 100)
       = true ->
     (forall limit,
        calculate_discount price discount_percent (Some limit)
        = Ok (sub price
                (py_min (mul price (div discount_percent (of_int 100)))
                   limit))) /\
     calculate_discount price discount_percent None
     = Ok (sub price (mul price (div discount_percent (of_int 100))))) /\
  (forall price discount_percent : Q,
     (0 <= price)%Q ->
     (0 <= discount_percent)%Q -> (discount_percent <= 100)%Q ->
     (forall limit, exists r,
        calculate_discount price discount_percent (Some limit) = Ok r /\
        (r == price - Qmin (price * (discount_percent / 100)) limit)%Q) /\
     (exists r,
        calculate_discount price discount_percent None = Ok r /\
        (r == price - price * (discount_percent / 100))%Q)) /\
  calculate_discount 100%float 50%float (Some 30%float) = Ok 70%float /\
  calculate_discount 100%float 20%float None = Ok 80%float.
Proof.
  split; [|split; [|split; vm_compute; reflexivity]].
  - intros A N price discount_percent Hp Hd. split.
    + intros limit.
      apply (calculate_discount_valid price discount_percent (Some limit) Hp Hd).
    + apply (calculate_discount_valid price discount_percent None Hp Hd).
  - intros price discount_percent Hp Hlo Hhi.
    assert (Hp' : ltb price (of_int 0) = false) by (apply Q_ltb_ge, Hp).
    assert (Hd' : leb (of_int 0) discount_percent
                  && leb discount_percent (of_int 100) = true)
      by (apply Q_range; auto).
    split.
    + intros limit. eexists. split.
      * apply (calculate_discount_valid price discount_percent (Some limit)
                 Hp' Hd').
      * cbn [sub]. rewrite Q_py_min. reflexivity.
    + eexists. split.
      * apply (calculate_discount_valid price discount_percent None Hp' Hd').
      * reflexivity.
Qed.

Lemma calculate_discount_formula_witness :
  (exists r,
     calculate_discount 100%Q 50%Q (Some 30%Q) = Ok r /\
     (r == 100 - Qmin (100 * (50 / 100)) 30)%Q) /\
  calculate_discount 200%float 25%float None
  = Ok (sub 200%float (mul 200%float (div 25%float (of_int 100)))).
Proof.
  split.
  - apply (proj1 (proj2 calculate_discount_formula) 100%Q 50%Q);
      vm_compute; discriminate.
  - apply (proj1 calculate_discount_formula float Number_float
             200%float 25%float); vm_compute; reflexivity.
Defined.

(** The successful calls of the test suite, in binary64 and exactly. *)
Example calculate_discount_examples :
  calculate_discount 100%float 50%float None = Ok 50%float /\
  calculate_discount 100%float 0%float None = Ok 100%float /\
  calculate_discount 100%float 10%float None = Ok 90%float /\
  calculate_discount 50%float 20%float None = Ok 40%float /\
  calculate_discount 200%float 25%float None = Ok 150%float /\
  calculate_discount 75%float 0%float None = Ok 75%float /\
  (exists r, calculate_discount 100%Q 50%Q (Some 30%Q) = Ok r /\ (r == 70)%Q) /\
  (exists r, calculate_discount 100%Q 20%Q None = Ok r /\ (r == 80)%Q).
Proof.
  repeat split; try (vm_compute; reflexivity);
    eexists; (split; [vm_compute; reflexivity | reflexivity]).
Qed.

(** * Further properties of [process_user_data] *)

(** A dictionary that lacks a required key is rejected for a key it lacks. *)
Lemma process_user_data_absent (user_data : gmap string value) :
  user_data !! "id" = None \/ user_data !! "name" = None
    \/ user_data !! "email" = None ->
  exists field,
    In field required_fields /\ user_data !! field = None /\
    process_user_data user_data = Raise (missing_field field).
Proof.
  intros Hmiss. unfold process_user_data, required_fields.
  cbn [check_fields].
  destruct (user_data !! "id") as [v1|] eqn:H1;
    [|exists "id"; cbn; auto].
  destruct (user_data !! "name") as [v2|] eqn:H2;
    [|exists "name"; cbn; auto].
  destruct (user_data !! "email") as [v3|] eqn:H3;
    [|exists "email"; cbn; auto 6].
  destruct Hmiss as [H|[H|H]]; discriminate.
Qed.

(** The three required keys are all there or one of them is not. *)
Lemma required_present_or_absent (user_data : gmap string value) :
  (exists id_value name_value email_value,
     user_data !! "id" = Some id_value /\
     user_data !! "name" = Some name_value /\
     user_data !! "email" = Some email_value) \/
  (user_data !! "id" = None \/ user_data !! "name" = None
     \/ user_data !! "email" = None).
Proof.
  destruct (user_data !! "id") as [v1|]; [|auto].
  destruct (user_data !! "name") as [v2|]; [|auto].
  destruct (user_data !! "email") as [v3|]; [|auto].
  left. eauto 7.
Qed.

(** Every failure of [process_user_data] is a [ValueError], as its docstring
    says: the subscripts [user_data[...]] never raise [KeyError], because the
    loop over the required fields has passed before they are evaluated. *)
Theorem process_user_data_value_error
    (user_data : gmap string value) (e : exn) :
  process_user_data user_data = Raise e ->
  exists msg, e = ValueError msg.
Proof.
  destruct (required_present_or_absent user_data)
    as [(id_value & name_value & email_value & Hid & Hname & Hemail)|Hmiss].
  - rewrite (process_user_data_present _ _ _ _ Hid Hname Hemail).
    rewrite validate_email_eq. cbn.
    match goal with |- context [negb ?b] => destruct b end; cbn.
    + destruct id_value as [s|n|b]; cbn; try discriminate.
      destruct (int_of_literal s); cbn; [discriminate|].
      intros [= <-]. eauto.
    + intros [= <-]. unfold invalid_email. eauto.
  - destruct (process_user_data_absent user_data Hmiss) as (f & _ & _ & ->).
    intros [= <-]. unfold missing_field. eauto.
Qed.

Lemma process_user_data_value_error_witness :
  exists msg, missing_field "id" = ValueError msg.
Proof.
  apply (process_user_data_value_error anonymous_data).
  vm_compute. reflexivity.
Defined.

(** Only the keys [id], [name], [email] and [active] are read: two
    dictionaries that agree on them give the same outcome. *)
Theorem process_user_data_agree (user_data user_data' : gmap string value) :
  (forall key, In key ["id"; "name"; "email"; "active"] ->
               user_data !! key = user_data' !! key) ->
  process_user_data user_data = process_user_data user_data'.
Proof.
  intros Hagree.
  assert (Hid : user_data !! "id" = user_data' !! "id")
    by (apply Hagree; cbn; auto).
  assert (Hname : user_data !! "name" = user_data' !! "name")
    by (apply Hagree; cbn; auto).
  assert (Hemail : user_data !! "email" = user_data' !! "email")
    by (apply Hagree; cbn; auto).
  assert (Hactive : user_data !! "active" = user_data' !! "active")
    by (apply Hagree; cbn; auto).
  unfold process_user_data, required_fields, getitem, get.
  cbn [check_fields].
  rewrite Hid, Hname, Hemail, Hactive. reflexivity.
Qed.

Lemma process_user_data_agree_witness :
  process_user_data (<["nickname" := VStr "bobby"]> bob_data)
  = process_user_data bob_data.
Proof.
  apply (process_user_data_agree (<["nickname" := VStr "bobby"]> bob_data)
           bob_data).
  intros key [<-|[<-|[<-|[<-|[]]]]]; reflexivity.
Defined.

(** ** Entries of another type than expected *)

(** The decimal text of a number holds digits only. *)
Lemma decimal_no_at (d : Decimal.uint) :
  contains "@" (NilEmpty.string_of_uint d) = false.
Proof. induction d; cbn; auto. Qed.

Lemma rstrip_decimal (d : Decimal.uint) :
  rstrip (NilEmpty.string_of_uint d) = NilEmpty.string_of_uint d.
Proof. induction d; cbn; rewrite ?IHd; reflexivity. Qed.

Lemma py_str_no_at (v : value) :
  (forall s, v <> VStr s) -> contains "@" (py_str v) = false.
Proof.
  intros Hv. destruct v as [s|n|[|]]; [destruct (Hv s eq_refl)| |reflexivity..].
  cbn. destruct (Z.to_int n) as [d|d]; cbn; unfold NilZero.string_of_uint;
    destruct d; try reflexivity; apply decimal_no_at.
Qed.

(** Without [@] an address is refused. *)
Lemma validate_email_no_at (email : string) :
  contains "@" email = false -> validate_email email = Ok false.
Proof.
  intros H. rewrite validate_email_eq, (split_no_sep _ _ H). reflexivity.
Qed.

(** An address that is a truth value, or a number within the interpreter's
    default limit of 4300 digits for [str], rather than text is always
    refused: its [str] holds no [@]. *)
Theorem process_user_data_email_not_text
    (user_data : gmap string value) (email_value : value) :
  is_Some (user_data !! "id") ->
  is_Some (user_data !! "name") ->
  user_data !! "email" = Some email_value ->
  (exists b, email_value = VBool b) \/
  (exists n, email_value = VInt n /\ (Z.abs n < 10 ^ 4300)%Z) ->
  process_user_data user_data = Raise (invalid_email (py_str email_value)).
Proof.
  intros [id_value Hid] [name_value Hname] Hemail Hv.
  rewrite (process_user_data_present _ _ _ _ Hid Hname Hemail).
  rewrite validate_email_no_at; [reflexivity|].
  apply py_str_no_at. intros s ->.
  destruct Hv as [[b Hb]|[n [Hn _]]]; discriminate.
Qed.

Lemma process_user_data_email_not_text_witness :
  process_user_data (<["email" := VInt 42]> bob_data)
  = Raise (invalid_email "42").
Proof.
  apply (process_user_data_email_not_text
           (<["email" := VInt 42]> bob_data) (VInt 42)).
  - exists (VInt 1). reflexivity.
  - exists (VStr "Bob"). reflexivity.
  - reflexivity.
  - right. exists 42%Z. split; [reflexivity|]. vm_compute. reflexivity.
Defined.

(** Reading decimal digits back. *)
Ltac eval_digit :=
  repeat match goal with
  | |- context [is_digit ?c] =>
      let b := eval vm_compute in (is_digit c) in
      change (is_digit c) with b; cbn iota
  | |- context [is_space ?c] =>
      let b := eval vm_compute in (is_space c) in
      change (is_space c) with b; cbn iota
  | |- context [digit_val ?c] =>
      let v := eval vm_compute in (digit_val c) in
      change (digit_val c) with v
  end.

Lemma digits_from_pos (d : Decimal.uint) (p : positive) :
  digits_from (Z.pos p) (NilEmpty.string_of_uint d)
  = Some (Z.pos (Pos.of_uint_acc d p)).
Proof.
  revert p. induction d; intros p; cbn [NilEmpty.string_of_uint digits_from
    Pos.of_uint_acc]; [reflexivity|..]; eval_digit;
    match goal with
    | |- digits_from ?acc _ = Some (Z.pos (Pos.of_uint_acc _ ?q)) =>
        replace acc with (Z.pos q) by lia
    end; apply IHd.
Qed.

Lemma digits_from_zero (d : Decimal.uint) :
  digits_from 0 (NilEmpty.string_of_uint d) = Some (Z.of_N (Pos.of_uint d)).
Proof.
  induction d; cbn [NilEmpty.string_of_uint digits_from Pos.of_uint];
    [reflexivity|..]; eval_digit;
    [exact IHd|..]; apply digits_from_pos.
Qed.

Lemma digits_decimal (d : Decimal.uint) :
  d <> Decimal.Nil ->
  digits (NilEmpty.string_of_uint d) = Some (Z.of_N (Pos.of_uint d)).
Proof.
  intros Hd. destruct d; [congruence|..];
    cbn [NilEmpty.string_of_uint digits Pos.of_uint]; eval_digit;
    [apply digits_from_zero|..]; apply digits_from_pos.
Qed.

Lemma lstrip_decimal (d : Decimal.uint) :
  lstrip (NilEmpty.string_of_uint d) = NilEmpty.string_of_uint d.
Proof.
  destruct d; [reflexivity|..]; cbn [NilEmpty.string_of_uint lstrip];
    eval_digit; reflexivity.
Qed.

(** [int(str(n)) == n]. *)
Lemma int_of_literal_decimal (n : Z) :
  int_of_literal (NilZero.string_of_int (Z.to_int n)) = Some n.
Proof.
  destruct n as [|p|p]; [reflexivity|..]; cbn [Z.to_int NilZero.string_of_int];
    pose proof (Unsigned.to_uint_nonnil p) as Hnil;
    pose proof (Unsigned.of_to p) as Hp;
    pose proof (digits_decimal (Pos.to_uint p) Hnil) as Hd;
    rewrite Hp in Hd; unfold NilZero.string_of_uint, int_of_literal.
  - destruct (Pos.to_uint p) eqn:E; [congruence|..];
      rewrite lstrip_decimal, rstrip_decimal;
      cbn [NilEmpty.string_of_uint] in *; exact Hd.
  - assert (Hs : NilEmpty.string_of_uint (Pos.to_uint p)
                 = match Pos.to_uint p with
                   | Decimal.Nil => "0"
                   | _ => NilEmpty.string_of_uint (Pos.to_uint p)
                   end)
      by (destruct (Pos.to_uint p); [congruence | reflexivity..]).
    rewrite <- Hs. cbn [lstrip]. eval_digit. cbn [rstrip]. eval_digit.
    cbn [andb]. rewrite rstrip_decimal, Hd. reflexivity.
Qed.

(** An [id] given as the decimal text of an integer is read as that integer:
    [int(str(n)) == n], so the text and the number give the same outcome. *)
Theorem process_user_data_id_text (user_data : gmap string value) (n : Z) :
  py_int (VStr (py_str (VInt n))) = Ok n /\
  process_user_data (<["id" := VStr (py_str (VInt n))]> user_data)
  = process_user_data (<["id" := VInt n]> user_data).
Proof.
  assert (Hint : py_int (VStr (py_str (VInt n))) = Ok n)
    by (cbn; rewrite int_of_literal_decimal; reflexivity).
  split; [exact Hint|].
  unfold process_user_data, required_fields, getitem, get.
  cbn [check_fields].
  rewrite !lookup_insert_eq, !lookup_insert_ne by discriminate.
  destruct (user_data !! "name") as [name_value|]; [|reflexivity].
  destruct (user_data !! "email") as [email_value|]; [|reflexivity].
  cbn [mbind result_bind bind].
  destruct (validate_email (py_str email_value)) as [[|]|e]; try reflexivity.
  cbn [negb]. rewrite Hint. reflexivity.
Qed.

(** ** Processing a dictionary, then displaying the user *)

(** The display name of a user built from a dictionary is the [str] of its
    name entry, a space and the [str] of its address entry in parentheses;
    it always holds an [@]. *)
Theorem process_user_data_display_name
    (user_data : gmap string value) (user : User) :
  process_user_data user_data = Ok user ->
  exists name_value email_value,
    user_data !! "name" = Some name_value /\
    user_data !! "email" = Some email_value /\
    get_display_name user
    = (py_str name_value +:+ " (" +:+ py_str email_value +:+ ")", user) /\
    contains "@" (fst (get_display_name user)) = true.
Proof.
  intros H. apply process_user_data_ok in H
    as (id_value & name_value & email_value & n
        & _ & Hname & Hemail & Hvalid & _ & ->).
  exists name_value, email_value.
  split; [exact Hname|]. split; [exact Hemail|]. split; [reflexivity|].
  unfold get_display_name. cbn [fst name email].
  apply validate_email_shape in Hvalid
    as (l & d & -> & _ & _ & _ & _).
  rewrite !contains_app.
  change (contains "@" (String "@" d)) with true.
  rewrite !orb_true_r. reflexivity.
Qed.

Lemma process_user_data_display_name_witness :
  exists name_value email_value,
    bob_data !! "name" = Some name_value /\
    bob_data !! "email" = Some email_value /\
    get_display_name bob
    = (py_str name_value +:+ " (" +:+ py_str email_value +:+ ")", bob) /\
    contains "@" (fst (get_display_name bob)) = true.
Proof.
  apply (process_user_data_display_name bob_data bob). vm_compute. reflexivity.
Defined.

(** * Further properties of [validate_email] *)

Lemma count_char_app (c : ascii) (s t : string) :
  count_char c (s +:+ t) = count_char c s + count_char c t.
Proof. induction s as [|x s IH]; simpl; [reflexivity | rewrite IH; lia]. Qed.

Lemma count_char_zero (c : ascii) (s : string) :
  contains c s = false -> count_char c s = 0.
Proof.
  intros H. pose proof (contains_count c s) as [_ Hc].
  destruct (count_char c s); [reflexivity|].
  rewrite Hc in H by lia. discriminate.
Qed.

Lemma contains_nonempty (c : ascii) (s : string) :
  contains c s = true -> 1 <= String.length s.
Proof. destruct s; simpl; [discriminate | lia]. Qed.

(** An accepted address holds exactly one [@], a dot, and at least three
    characters; an address with no [@] or with several is refused. *)
Theorem validate_email_one_at (email : string) :
  (count_char "@" email <> 1 -> validate_email email = Ok false) /\
  (validate_email email = Ok true ->
   count_char "@" email = 1 /\
   contains "." email = true /\
   3 <= String.length email).
Proof.
  split.
  - intros Hcount. rewrite validate_email_eq.
    pose proof (length_split "@" email) as Hlen.
    destruct (split "@" email) as [|l [|d [|x rest]]]; try reflexivity.
    simpl in Hlen. lia.
  - intros H. apply validate_email_shape in H
      as (l & d & -> & Hl & Hl' & Hd' & Hd).
    rewrite count_char_app, contains_app, length_append.
    change (count_char "@" (String "@" d)) with (1 + count_char "@" d).
    change (contains "." (String "@" d)) with (contains "." d).
    change (String.length (String "@" d)) with (S (String.length d)).
    rewrite (count_char_zero _ _ Hl'), (count_char_zero _ _ Hd'), Hd.
    pose proof (contains_nonempty _ _ Hd).
    destruct l; [congruence|]. simpl. rewrite orb_true_r.
    repeat split; lia.
Qed.

Lemma validate_email_one_at_witness :
  validate_email "user@@example.com" = Ok false /\
  (count_char "@" "user@example.com" = 1 /\
   contains "." "user@example.com" = true /\
   3 <= String.length "user@example.com").
Proof.
  split.
  - apply (proj1 (validate_email_one_at "user@@example.com")).
    vm_compute. discriminate.
  - apply (proj2 (validate_email_one_at "user@example.com")). reflexivity.
Defined.

(** On a local part and a domain without [@], joined by one [@]: the
    address is accepted exactly when the local part is not empty and the
    domain holds a dot; dots of the local part do not count. *)
Theorem validate_email_parts (local domain : string) :
  contains "@" local = false ->
  contains "@" domain = false ->
  validate_email (local +:+ String "@" domain)
  = Ok (negb (is_empty local) && contains "." domain).
Proof.
  intros Hl Hd. rewrite validate_email_eq.
  rewrite (split_app _ _ _ Hl), (split_no_sep _ _ Hd). reflexivity.
Qed.

Lemma validate_email_parts_witness :
  validate_email ("first.last" +:+ String "@" "localhost") = Ok false.
Proof.
  apply (validate_email_parts "first.last" "localhost"); reflexivity.
Defined.

(** * Further properties of [calculate_discount] *)

(** ** In exact arithmetic *)

(** Past the guards, with the comparisons read as the order of the rationals. *)
Lemma calculate_discount_Q
    (price discount_percent : Q) (max_discount : option Q) :
  (0 <= price)%Q ->
  (0 <= discount_percent)%Q -> (discount_percent <= 100)%Q ->
  calculate_discount price discount_percent max_discount
  = Ok (price -
        match max_discount with
        | Some limit => py_min (price * (discount_percent / inject_Z 100)) limit
        | None => price * (discount_percent / inject_Z 100)
        end)%Q.
Proof.
  intros Hp Hlo Hhi.
  rewrite (calculate_discount_valid price discount_percent max_discount)
    by (apply Q_ltb_ge || apply Q_range; auto).
  destruct max_discount; reflexivity.
Qed.

(** [min] picks one of its arguments, below both. *)
Lemma Q_py_min_cases (a b : Q) :
  (py_min a b = b /\ (b < a)%Q) \/ (py_min a b = a /\ (a <= b)%Q).
Proof.
  unfold py_min. destruct (ltb b a) eqn:E.
  - left. split; [reflexivity | apply Q_ltb_lt, E].
  - right. split; [reflexivity | apply Q_ltb_ge, E].
Qed.



(** A larger percentage never gives a larger price to pay. *)
Theorem calculate_discount_monotone_percent
    (price percent1 percent2 : Q) (max_discount : option Q) :
  (0 <= price)%Q ->
  (0 <= percent1)%Q -> (percent1 <= percent2)%Q -> (percent2 <= 100)%Q ->
  exists r1 r2,
    calculate_discount price percent1 max_discount = Ok r1 /\
    calculate_discount price percent2 max_discount = Ok r2 /\
    (r2 <= r1)%Q.
Proof.
  intros Hp H1 H12 H2.
  rewrite !calculate_discount_Q by lra.
  eexists. eexists. split; [reflexivity|]. split; [reflexivity|].
  assert (Hq : forall x : Q, (x / inject_Z 100 == x * (1 # 100))%Q)
    by (intros x; unfold Qdiv; reflexivity).
  assert (Hd : (price * (percent1 / inject_Z 100)
                <= price * (percent2 / inject_Z 100))%Q)
    by (rewrite !Hq; nra).
  destruct max_discount as [limit|]; [|lra].
  destruct (Q_py_min_cases (price * (percent1 / inject_Z 100)) limit)
    as [[-> ?]|[-> ?]];
  destruct (Q_py_min_cases (price * (percent2 / inject_Z 100)) limit)
    as [[-> ?]|[-> ?]]; lra.
Qed.

Lemma calculate_discount_monotone_percent_witness :
  exists r1 r2,
    calculate_discount 100%Q 10%Q (Some 30%Q) = Ok r1 /\
    calculate_discount 100%Q 50%Q (Some 30%Q) = Ok r2 /\
    (r2 <= r1)%Q.
Proof.
  apply (calculate_discount_monotone_percent 100%Q 10%Q 50%Q (Some 30%Q));
    vm_compute; discriminate.
Defined.

(** A larger price never gives a smaller price to pay. *)
Theorem calculate_discount_monotone_price
    (price1 price2 discount_percent : Q) (max_discount : option Q) :
  (0 <= price1)%Q -> (price1 <= price2)%Q ->
  (0 <= discount_percent)%Q -> (discount_percent <= 100)%Q ->
  exists r1 r2,
    calculate_discount price1 discount_percent max_discount = Ok r1 /\
    calculate_discount price2 discount_percent max_discount = Ok r2 /\
    (r1 <= r2)%Q.
Proof.
  intros Hp1 Hp12 Hlo Hhi.
  rewrite !calculate_discount_Q by lra.
  eexists. eexists. split; [reflexivity|]. split; [reflexivity|].
  assert (Hq : (discount_percent / inject_Z 100
                == discount_percent * (1 # 100))%Q)
    by (unfold Qdiv; reflexivity).
  set (q := (discount_percent / inject_Z 100)%Q) in *.
  assert (Hq0 : (0 <= q)%Q) by lra.
  assert (Hq1 : (q <= 1)%Q) by lra.
  clearbody q.
  assert (Hd : (price1 * q <= price2 * q)%Q) by nra.
  assert (Hr : (price1 - price1 * q <= price2 - price2 * q)%Q) by nra.
  destruct max_discount as [limit|]; [|lra].
  destruct (Q_py_min_cases (price1 * q) limit) as [[-> ?]|[-> ?]];
  destruct (Q_py_min_cases (price2 * q) limit) as [[-> ?]|[-> ?]]; lra.
Qed.

Lemma calculate_discount_monotone_price_witness :
  exists r1 r2,
    calculate_discount 50%Q 20%Q (Some 30%Q) = Ok r1 /\
    calculate_discount 200%Q 20%Q (Some 30%Q) = Ok r2 /\
    (r1 <= r2)%Q.
Proof.
  apply (calculate_discount_monotone_price 50%Q 200%Q 20%Q (Some 30%Q));
    vm_compute; discriminate.
Defined.

(** The ends of the range: no discount at 0 percent or under a limit of 0,
    nothing left to pay at 100 percent without a limit. *)
Theorem calculate_discount_endpoints (price : Q) :
  (0 <= price)%Q ->
  (exists r, calculate_discount price 0%Q None = Ok r /\ (r == price)%Q) /\
  (exists r, calculate_discount price 100%Q None = Ok r /\ (r == 0)%Q) /\
  (forall discount_percent,
     (0 <= discount_percent)%Q -> (discount_percent <= 100)%Q ->
     exists r,
       calculate_discount price discount_percent (Some 0%Q) = Ok r /\
       (r == price)%Q).
Proof.
  intros Hp. split; [|split].
  - rewrite calculate_discount_Q by lra. eexists. split; [reflexivity|].
    assert (H0 : (0 / inject_Z 100 == 0)%Q) by reflexivity.
    rewrite H0. lra.
  - rewrite calculate_discount_Q by lra. eexists. split; [reflexivity|].
    assert (H1 : (100 / inject_Z 100 == 1)%Q) by reflexivity.
    rewrite H1. lra.
  - intros discount_percent Hlo Hhi.
    rewrite calculate_discount_Q by lra. eexists. split; [reflexivity|].
    pose proof (Q_discount_amount price discount_percent Hp Hlo Hhi) as [Hd _].
    destruct (Q_py_min_cases (price * (discount_percent / inject_Z 100)) 0%Q)
      as [[-> ?]|[-> ?]]; lra.
Qed.

Lemma calculate_discount_endpoints_witness :
  (exists r, calculate_discount 75%Q 0%Q None = Ok r /\ (r == 75)%Q) /\
  (exists r, calculate_discount 75%Q 100%Q None = Ok r /\ (r == 0)%Q) /\
  (forall discount_percent,
     (0 <= discount_percent)%Q -> (discount_percent <= 100)%Q ->
     exists r,
       calculate_discount 75%Q discount_percent (Some 0%Q) = Ok r /\
       (r == 75)%Q).
Proof.
  apply (calculate_discount_endpoints 75%Q). vm_compute. discriminate.
Defined.

(** ** In binary64 *)

Lemma Prim2SF_zero : Prim2SF 0%float = S754_zero false.
Proof. vm_compute. reflexivity. Qed.

Lemma Prim2SF_nan : Prim2SF nan = S754_nan.
Proof. vm_compute. reflexivity. Qed.

(** A number that is at least zero is not below zero. *)
Lemma float_nonneg_not_neg (x : float) :
  PrimFloat.leb 0%float x = true -> PrimFloat.ltb x 0%float = false.
Proof.
  rewrite FloatAxioms.leb_spec, FloatAxioms.ltb_spec, Prim2SF_zero.
  destruct (Prim2SF x) as [s|s| |s m e]; cbn; try discriminate;
    destruct s; cbn; congruence.
Qed.

Lemma float_is_nan (x : float) :
  Prim2SF x = S754_nan -> PrimFloat.is_nan x = true.
Proof.
  intros Hx. unfold PrimFloat.is_nan. rewrite FloatAxioms.eqb_spec, Hx. reflexivity.
Qed.

Lemma float_sub_nan_l (x y : float) :
  Prim2SF x = S754_nan -> Prim2SF (x - y)%float = S754_nan.
Proof. intros Hx. rewrite FloatAxioms.sub_spec, Hx. reflexivity. Qed.

(** Arguments in range, compared as binary64 numbers, are never rejected. *)
Theorem calculate_discount_float_valid
    (price discount_percent : float) (max_discount : option float) :
  PrimFloat.leb 0%float price = true ->
  PrimFloat.leb 0%float discount_percent = true ->
  PrimFloat.leb discount_percent 100%float = true ->
  exists r, calculate_discount price discount_percent max_discount = Ok r.
Proof.
  intros Hp Hlo Hhi.
  rewrite (calculate_discount_valid price discount_percent max_discount).
  - eauto.
  - apply float_nonneg_not_neg, Hp.
  - destruct float_literals as [H0 H100]. rewrite H0, H100.
    cbn [leb Number_float]. rewrite Hlo, Hhi. reflexivity.
Qed.

Lemma calculate_discount_float_valid_witness :
  exists r, calculate_discount 100%float 20%float (Some 30%float) = Ok r.
Proof.
  apply (calculate_discount_float_valid 100%float 20%float (Some 30%float));
    vm_compute; reflexivity.
Defined.

(** Not-a-number arguments: as a percentage it is always rejected; as a
    price it passes both guards, and the result is not a number either. *)
Theorem calculate_discount_nan :
  (forall (price : float) (max_discount : option float),
     calculate_discount price nan max_discount = Raise negative_price \/
     calculate_discount price nan max_discount = Raise percent_out_of_range) /\
  (forall (discount_percent : float) (max_discount : option float),
     PrimFloat.leb 0%float discount_percent = true ->
     PrimFloat.leb discount_percent 100%float = true ->
     exists r,
       calculate_discount nan discount_percent max_discount = Ok r /\
       PrimFloat.is_nan r = true).
Proof.
  split.
  - intros price max_discount.
    destruct (ltb price (of_int 0)) eqn:Hp.
    + left. apply calculate_discount_negative, Hp.
    + right. apply calculate_discount_out_of_range; [exact Hp|].
      vm_compute. reflexivity.
  - intros discount_percent max_discount Hlo Hhi.
    rewrite (calculate_discount_valid nan discount_percent max_discount).
    + eexists. split; [reflexivity|].
      apply float_is_nan. cbn [sub mul div Number_float].
      apply float_sub_nan_l, Prim2SF_nan.
    + vm_compute. reflexivity.
    + destruct float_literals as [H0 H100]. rewrite H0, H100.
      cbn [leb Number_float]. rewrite Hlo, Hhi. reflexivity.
Qed.

Lemma calculate_discount_nan_witness :
  exists r,
    calculate_discount nan 20%float (Some 30%float) = Ok r /\
    PrimFloat.is_nan r = true.
Proof.
  apply (proj2 calculate_discount_nan 20%float (Some 30%float));
    vm_compute; reflexivity.
Defined.

Lemma SFcompare_refl_finite (m : positive) (e : Z) :
  SFcompare (S754_finite false m e) (S754_finite false m e) = Some Eq.
Proof.
  cbn. rewrite Z.compare_refl.
  f_equal. apply Pos.compare_cont_refl.
Qed.

(** Zero percent gives back the price itself, without any rounding, for
    every finite price that is not negative, with no limit or with a limit
    that is not negative. *)
Theorem calculate_discount_float_zero_percent
    (price : float) (max_discount : option float) :
  PrimFloat.leb 0%float price = true ->
  PrimFloat.ltb price infinity = true ->
  (forall limit, max_discount = Some limit ->
                 PrimFloat.leb 0%float limit = true) ->
  exists r,
    calculate_discount price 0%float max_discount = Ok r /\
    PrimFloat.eqb r price = true.
Proof.
  intros Hp Hfin Hlimit.
  rewrite (calculate_discount_valid price 0%float max_discount);
    [|apply float_nonneg_not_neg, Hp | vm_compute; reflexivity].
  eexists. split; [reflexivity|].
  cbn [sub mul div Number_float].
  assert (Hq : (0 / of_int 100)%float = 0%float) by (vm_compute; reflexivity).
  rewrite Hq. clear Hq.
  set (amount := (price * 0)%float).
  assert (Hamount : exists s, Prim2SF amount = S754_zero s).
  { unfold amount. rewrite FloatAxioms.mul_spec, Prim2SF_zero.
    rewrite FloatAxioms.leb_spec, Prim2SF_zero in Hp.
    rewrite FloatAxioms.ltb_spec in Hfin.
    destruct (Prim2SF price) as [s|s| |s m e]; cbn in *; try discriminate.
    - exists (xorb s false). reflexivity.
    - destruct s; discriminate.
    - exists (xorb s false). reflexivity. }
  destruct Hamount as (s & Hamount).
  assert (Hmin : match max_discount with
                 | Some limit => py_min amount limit
                 | None => amount
                 end = amount).
  { destruct max_discount as [limit|]; [|reflexivity].
    specialize (Hlimit limit eq_refl).
    unfold py_min. cbn [ltb Number_float].
    rewrite FloatAxioms.ltb_spec, Hamount.
    rewrite FloatAxioms.leb_spec, Prim2SF_zero in Hlimit.
    destruct (Prim2SF limit) as [sl|sl| |sl ml el]; cbn in *;
      try discriminate; try reflexivity; destruct sl; cbn in *;
      congruence. }
  rewrite Hmin.
  rewrite FloatAxioms.eqb_spec, FloatAxioms.sub_spec, Hamount.
  rewrite FloatAxioms.leb_spec, Prim2SF_zero in Hp.
  rewrite FloatAxioms.ltb_spec in Hfin.
  destruct (Prim2SF price) as [sp|sp| |sp mp ep] eqn:E; cbn in Hp, Hfin;
    try discriminate.
  - destruct sp, s; reflexivity.
  - destruct sp; discriminate.
  - destruct sp; [discriminate|].
    unfold SF64sub, SFsub, SFeqb. rewrite SFcompare_refl_finite. reflexivity.
Qed.

Lemma calculate_discount_float_zero_percent_witness :
  exists r,
    calculate_discount 75%float 0%float (Some 30%float) = Ok r /\
    PrimFloat.eqb r 75%float = true.
Proof.
  apply (calculate_discount_float_zero_percent 75%float (Some 30%float)).
  - vm_compute. reflexivity.
  - vm_compute. reflexivity.
  - intros limit [= <-]. vm_compute. reflexivity.
Defined.

(** * Rounding in binary64

    The bounds of [calculate_discount] for Python floats.  Each operation of
    the function rounds its exact result to the nearest binary64 number; the
    lemmas below show that such a rounding never passes a binary64 number
    that bounds the exact result, and apply this to the quotient, the
    product and the difference the function computes. *)

Section Binary64.

Local Open Scope Z_scope.

Lemma digits2_size (p : positive) : digits2_pos p = Pos.size p.
Proof. induction p; simpl; congruence. Qed.

Lemma Zdigits2_log2 (p : positive) :
  Zdigits2 (Z.pos p) = Z.log2 (Z.pos p) + 1.
Proof.
  simpl. rewrite digits2_size. destruct p; simpl; try lia.
Qed.

Lemma fexp_eq (e : Z) : fexp prec emax e = Z.max (e - 53) (-1074).
Proof. reflexivity. Qed.

Lemma shr_1_bound (r : shr_record) (B : Z) :
  shr_bound r (2 * B) -> shr_bound (shr_1 r) B.
Proof.
  destruct r as [m r s]. unfold shr_bound. cbn [shr_m shr_r shr_s].
  intros [[H0 HB] Hin].
  destruct m as [|p|p]; [| |lia].
  - cbn. split; [lia|]. intros H. specialize (Hin H). lia.
  - destruct p as [p|p|]; cbn.
    + split; [lia|]. intros _. lia.
    + split; [lia|]. intros H. specialize (Hin H). lia.
    + split; [lia|]. intros _. lia.
Qed.

Lemma pow2_xI (p : positive) :
  2 ^ Z.pos p~1 = 2 * (2 ^ Z.pos p * 2 ^ Z.pos p).
Proof.
  replace (Z.pos p~1) with (Z.pos p + Z.pos p + 1) by lia.
  rewrite !Z.pow_add_r by lia. lia.
Qed.

Lemma pow2_xO (p : positive) :
  2 ^ Z.pos p~0 = 2 ^ Z.pos p * 2 ^ Z.pos p.
Proof.
  replace (Z.pos p~0) with (Z.pos p + Z.pos p) by lia.
  rewrite !Z.pow_add_r by lia. lia.
Qed.

Lemma iter_shr_bound (p : positive) :
  forall (r : shr_record) (B : Z),
    shr_bound r (B * 2 ^ Z.pos p) -> shr_bound (SpecFloat.iter_pos shr_1 p r) B.
Proof.
  induction p as [p IH|p IH|]; intros r B H; cbn [SpecFloat.iter_pos].
  - apply IH, IH, shr_1_bound.
    replace (2 * (B * 2 ^ Z.pos p * 2 ^ Z.pos p)) with (B * 2 ^ Z.pos p~1)
      by (rewrite pow2_xI; lia).
    exact H.
  - apply IH, IH.
    replace (B * 2 ^ Z.pos p * 2 ^ Z.pos p) with (B * 2 ^ Z.pos p~0)
      by (rewrite pow2_xO; lia).
    exact H.
  - apply shr_1_bound. replace (2 * B) with (B * 2 ^ 1) by lia. exact H.
Qed.

Lemma round_bound (r : shr_record) (B : Z) :
  shr_bound r B ->
  0 <= round_nearest_even (shr_m r) (loc_of_shr_record r) <= B.
Proof.
  destruct r as [m [|] [|]]; unfold shr_bound; cbn; intros [H0 Hin];
    try destruct (Z.even m); lia.
Qed.

Lemma shr_bound_shift (r : shr_record) (e n B : Z) :
  0 <= n -> shr_bound r (B * 2 ^ n) ->
  shr_bound (fst (shr r e n)) B /\ snd (shr r e n) = e + n.
Proof.
  intros Hn H. destruct n as [|p|p]; cbn [shr fst snd]; [| |lia].
  - rewrite Z.mul_1_r in H. split; [exact H | lia].
  - split; [apply iter_shr_bound, H | reflexivity].
Qed.

Lemma Zdigits2_nonneg (a : Z) : 0 <= Zdigits2 a.
Proof. destruct a; simpl; lia. Qed.

(** Magnitudes are monotone. *)
Lemma Zdigits2_le (a : Z) (b : positive) (k : Z) :
  0 <= k -> 0 <= a <= Z.pos b * 2 ^ k ->
  Zdigits2 a <= Zdigits2 (Z.pos b) + k.
Proof.
  intros Hk [H0 Hab]. destruct a as [|a|a]; [| |lia].
  - pose proof (Zdigits2_nonneg (Z.pos b)). simpl Zdigits2 at 1. lia.
  - rewrite !Zdigits2_log2.
    pose proof (Z.log2_le_mono _ _ Hab) as Hl.
    rewrite Z.log2_mul_pow2 in Hl by lia. lia.
Qed.

Lemma bounded_inv (m : positive) (e : Z) :
  bounded prec emax m e = true ->
  fexp prec emax (Zdigits2 (Z.pos m) + e) = e /\ e <= 971 /\ -1074 <= e
  /\ Zdigits2 (Z.pos m) <= 53.
Proof.
  unfold bounded, canonical_mantissa. intros H.
  apply andb_true_iff in H as [Hc Hb].
  apply Z.eqb_eq in Hc. apply Z.leb_le in Hb.
  change (Z.pos (digits2_pos m)) with (Zdigits2 (Z.pos m)) in Hc.
  rewrite fexp_eq in *. change (emax - prec) with 971 in Hb. lia.
Qed.

(** One shift to the canonical exponent keeps an upper bound [Y * 2 ^ ey]
    whose exponent is canonical. *)
Lemma shr_fexp_bound (m e : Z) (l : location) (Y : Z) (ey : Z) :
  e <= ey ->
  fexp prec emax (Zdigits2 m + e) <= ey ->
  shr_bound (shr_record_of_loc m l) (Y * 2 ^ (ey - e)) ->
  e <= snd (shr_fexp prec emax m e l) <= ey /\
  shr_bound (fst (shr_fexp prec emax m e l))
    (Y * 2 ^ (ey - snd (shr_fexp prec emax m e l))).
Proof.
  intros He Hf Hb. unfold shr_fexp.
  set (n := fexp prec emax (Zdigits2 m + e) - e) in *.
  destruct (Z.le_gt_cases n 0) as [Hn|Hn].
  - assert (Hs : shr (shr_record_of_loc m l) e n = (shr_record_of_loc m l, e))
      by (destruct n; [reflexivity | lia | reflexivity]).
    rewrite Hs. cbn [fst snd]. split; [lia | exact Hb].
  - destruct (shr_bound_shift (shr_record_of_loc m l) e n
                (Y * 2 ^ (ey - (e + n)))) as [H1 H2]; [lia| |].
    + rewrite <- Z.mul_assoc, <- Z.pow_add_r by lia.
      replace (ey - (e + n) + n) with (ey - e) by lia. exact Hb.
    + rewrite H2. split; [lia | exact H1].
Qed.

Lemma shr_record_of_loc_m (m : Z) (l : location) :
  shr_m (shr_record_of_loc m l) = m.
Proof. destruct l as [|[| |]]; reflexivity. Qed.

(** Rounding below a representable bound stays below it. *)
Lemma round_aux_le (mx ex : Z) (lx : location) (my : positive) (ey : Z) :
  bounded prec emax my ey = true ->
  ex <= ey ->
  shr_bound (shr_record_of_loc mx lx) (Z.pos my * 2 ^ (ey - ex)) ->
  match binary_round_aux prec emax false mx ex lx with
  | S754_zero false => True
  | S754_finite false m e => e < ey \/ (e = ey /\ (m <= my)%positive)
  | _ => False
  end.
Proof.
  intros Hy He Hb.
  apply bounded_inv in Hy as (Hcan & Hmax & Hmin & Hdig).
  assert (Hfexp : forall m e, e <= ey -> 0 <= m <= Z.pos my * 2 ^ (ey - e) ->
            fexp prec emax (Zdigits2 m + e) <= ey).
  { intros m e Hle Hm.
    assert (Hk : 0 <= ey - e) by lia.
    pose proof (Zdigits2_le m my (ey - e) Hk Hm) as Hd.
    rewrite fexp_eq in *. lia. }
  assert (Hmx : 0 <= mx <= Z.pos my * 2 ^ (ey - ex)).
  { destruct Hb as [Hb _]. rewrite shr_record_of_loc_m in Hb. exact Hb. }
  unfold binary_round_aux.
  destruct (shr_fexp_bound mx ex lx (Z.pos my) ey He (Hfexp _ _ He Hmx) Hb)
    as [He1 Hb1].
  destruct (shr_fexp prec emax mx ex lx) as [r1 e1]. cbn [fst snd] in *.
  pose proof (round_bound r1 _ Hb1) as Hr.
  set (mr := round_nearest_even (shr_m r1) (loc_of_shr_record r1)) in *.
  assert (Hb2 : shr_bound (shr_record_of_loc mr loc_Exact)
                  (Z.pos my * 2 ^ (ey - e1))).
  { split; [exact Hr | discriminate]. }
  assert (He1' : e1 <= ey) by lia.
  destruct (shr_fexp_bound mr e1 loc_Exact (Z.pos my) ey
              He1' (Hfexp _ _ He1' Hr) Hb2) as [He2 Hb3].
  destruct (shr_fexp prec emax mr e1 loc_Exact) as [r2 e2].
  cbn [fst snd] in *.
  destruct Hb3 as [[H0 Hle] _].
  destruct r2 as [m2 rr2 ss2]. cbn [shr_m] in *.
  destruct m2 as [|m|m]; [exact I| |lia].
  replace (e2 <=? emax - prec) with true
    by (symmetry; apply Z.leb_le; change (emax - prec) with 971; lia).
  destruct (Z.eq_dec e2 ey) as [->|Hne]; [right|left; lia].
  split; [reflexivity|]. rewrite Z.sub_diag in Hle. lia.
Qed.

(** ** The order on finite numbers that are not negative *)

Lemma SFleb_finite (m : positive) (e : Z) (m' : positive) (e' : Z) :
  SFleb (S754_finite false m e) (S754_finite false m' e') = true <->
  e < e' \/ (e = e' /\ (m <= m')%positive).
Proof.
  unfold SFleb, SFcompare.
  change (Pos.compare_cont Eq m m') with (Pos.compare m m').
  destruct (Z.compare_spec e e') as [Heq|Hlt|Hgt].
  - destruct (Pos.compare_spec m m'); split; try discriminate;
      try (intros _; right; split; [assumption | lia]);
      intros [?|[_ ?]]; try reflexivity; lia.
  - split; [left; assumption | reflexivity].
  - split; [discriminate | lia].
Qed.

Lemma SFltb_finite (m : positive) (e : Z) (m' : positive) (e' : Z) :
  SFltb (S754_finite false m e) (S754_finite false m' e') = true <->
  e < e' \/ (e = e' /\ (m < m')%positive).
Proof.
  unfold SFltb, SFcompare.
  change (Pos.compare_cont Eq m m') with (Pos.compare m m').
  destruct (Z.compare_spec e e') as [Heq|Hlt|Hgt].
  - destruct (Pos.compare_spec m m'); split; try discriminate;
      try (intros _; right; split; [assumption | lia]);
      intros [?|[_ ?]]; try reflexivity; lia.
  - split; [left; assumption | reflexivity].
  - split; [discriminate | lia].
Qed.

Lemma pos_digits_bounds (m : positive) :
  2 ^ (Zdigits2 (Z.pos m) - 1) <= Z.pos m < 2 ^ Zdigits2 (Z.pos m).
Proof.
  rewrite Zdigits2_log2.
  pose proof (Z.log2_spec (Z.pos m) ltac:(lia)) as H.
  replace (Z.log2 (Z.pos m) + 1 - 1) with (Z.log2 (Z.pos m)) by lia.
  exact H.
Qed.

(** On canonical numbers the order is the order of the values. *)
Lemma SFleb_value (m : positive) (e : Z) (m' : positive) (e' : Z) (k : Z) :
  bounded prec emax m e = true ->
  bounded prec emax m' e' = true ->
  SFleb (S754_finite false m e) (S754_finite false m' e') = true ->
  k <= e -> k <= e' ->
  Z.pos m * 2 ^ (e - k) <= Z.pos m' * 2 ^ (e' - k).
Proof.
  intros Hx Hy Hle Hk Hk'.
  apply bounded_inv in Hx as (Hcx & _ & Hminx & Hdx).
  apply bounded_inv in Hy as (Hcy & _ & Hminy & Hdy).
  apply SFleb_finite in Hle as [Hlt|[-> Hm]].
  - pose proof (pos_digits_bounds m) as [_ Hmx].
    pose proof (pos_digits_bounds m') as [Hmy _].
    rewrite fexp_eq in Hcy.
    assert (Hd' : Zdigits2 (Z.pos m') = 53) by lia.
    rewrite Hd' in Hmy. change (2 ^ (53 - 1)) with (2 ^ 52) in Hmy.
    assert (Hm53 : Z.pos m < 2 ^ 53).
    { eapply Z.lt_le_trans; [exact Hmx|].
      apply Z.pow_le_mono_r; lia. }
    assert (Hp : 2 ^ (e' - k) = 2 ^ (e' - e - 1) * 2 * 2 ^ (e - k)).
    { rewrite <- (Z.pow_1_r 2) at 3.
      rewrite <- !Z.pow_add_r by lia. f_equal. lia. }
    rewrite Hp.
    assert (H1 : 0 < 2 ^ (e - k)) by (apply Z.pow_pos_nonneg; lia).
    assert (H2 : 1 <= 2 ^ (e' - e - 1))
      by (pose proof (Z.pow_pos_nonneg 2 (e' - e - 1)); lia).
    change (2 ^ 53) with (2 ^ 52 * 2) in Hm53. nia.
  - apply Z.mul_le_mono_nonneg_r; [|lia].
    apply Z.pow_nonneg. lia.
Qed.

Lemma round_aux_below (mx ex : Z) (lx : location) (my : positive) (ey : Z) :
  bounded prec emax my ey = true ->
  ex <= ey ->
  shr_bound (shr_record_of_loc mx lx) (Z.pos my * 2 ^ (ey - ex)) ->
  below (S754_finite false my ey) (binary_round_aux prec emax false mx ex lx).
Proof.
  intros Hy He Hb. pose proof (round_aux_le mx ex lx my ey Hy He Hb) as H.
  destruct (binary_round_aux prec emax false mx ex lx)
    as [[|]|[|]| |[|] m e]; cbn [below]; try exact I; try contradiction.
  apply SFleb_finite, H.
Qed.

Lemma pos_iter_xO (m d : positive) :
  Z.pos (Pos.iter xO m d) = Z.pos m * 2 ^ Z.pos d.
Proof.
  induction d as [|d IH] using Pos.peano_ind.
  - cbn. lia.
  - rewrite Pos.iter_succ, Pos2Z.inj_xO, IH, Pos2Z.inj_succ.
    rewrite Z.pow_succ_r by lia. lia.
Qed.

Lemma shl_align_value (m : positive) (e e' : Z) :
  snd (shl_align m e e') = Z.min e e' /\
  Z.pos (fst (shl_align m e e'))
  = Z.pos m * 2 ^ (e - snd (shl_align m e e')).
Proof.
  unfold shl_align. destruct (e' - e) as [|d|d] eqn:E; cbn [fst snd].
  - split; [lia|]. rewrite Z.sub_diag. lia.
  - split; [lia|]. rewrite Z.sub_diag. lia.
  - split; [lia|]. rewrite pos_iter_xO. f_equal. f_equal. lia.
Qed.


Lemma Prim2SF_one : Prim2SF 1%float = one_sf.
Proof. vm_compute. reflexivity. Qed.
Lemma Prim2SF_hundred : Prim2SF 100%float = hundred_sf.
Proof. vm_compute. reflexivity. Qed.


Lemma pow2_52 : 4503599627370496 = 2 ^ 52.
Proof. reflexivity. Qed.

Lemma SFmul_below (mp : positive) (ep : Z) (mq : positive) (eq' : Z) :
  bounded prec emax mp ep = true ->
  bounded prec emax mq eq' = true ->
  SFleb (S754_finite false mq eq') one_sf = true ->
  below (S754_finite false mp ep)
    (SF64mul (S754_finite false mp ep) (S754_finite false mq eq')).
Proof.
  intros Hp Hq Hle. unfold one_sf in Hle.
  assert (Hone : bounded prec emax 4503599627370496 (-52) = true)
    by (vm_compute; reflexivity).
  pose proof (proj1 (SFleb_finite mq eq' 4503599627370496 (-52)) Hle) as Hlex.
  assert (Heq : eq' <= -52)
    by (destruct Hlex as [H|[H _]]; clear - H; lia).
  assert (Hrefl : eq' <= eq') by (clear; lia).
  pose proof (SFleb_value mq eq' _ _ eq' Hq Hone Hle Hrefl Heq) as Hv.
  rewrite Z.sub_diag, Z.mul_1_r in Hv.
  clear Hone Hle Hlex.
  rewrite pow2_52, <- Z.pow_add_r in Hv by (clear - Heq; lia).
  replace (52 + (-52 - eq')) with (- eq') in Hv by (clear; lia).
  unfold SF64mul, SFmul. cbn [xorb].
  apply round_aux_below; [exact Hp | clear - Heq; lia |].
  split; [|discriminate]. cbn [shr_record_of_loc shr_m].
  replace (ep - (ep + eq')) with (- eq') by (clear; lia).
  rewrite Pos2Z.inj_mul. split; [clear; lia|].
  apply Z.mul_le_mono_nonneg_l; [clear; lia | exact Hv].
Qed.
(** A difference of a number and a smaller one lies between zero and the
    number. *)
Lemma SFsub_below (mp : positive) (ep : Z) (md : positive) (ed : Z) :
  bounded prec emax mp ep = true ->
  bounded prec emax md ed = true ->
  SFleb (S754_finite false md ed) (S754_finite false mp ep) = true ->
  below (S754_finite false mp ep)
    (SF64sub (S754_finite false mp ep) (S754_finite false md ed)).
Proof.
  intros Hp Hd Hle.
  unfold SF64sub, SFsub. cbn [cond_Zopp].
  destruct (shl_align_value mp ep (Z.min ep ed)) as [Hsp Hvp].
  destruct (shl_align_value md ed (Z.min ep ed)) as [Hsd Hvd].
  assert (Hk1 : Z.min ep ed <= ed) by (clear; lia).
  assert (Hk2 : Z.min ep ed <= ep) by (clear; lia).
  pose proof (SFleb_value md ed mp ep (Z.min ep ed) Hd Hp Hle Hk1 Hk2) as Hv.
  replace (snd (shl_align mp ep (Z.min ep ed))) with (Z.min ep ed) in Hvp
    by (clear - Hsp; lia).
  replace (snd (shl_align md ed (Z.min ep ed))) with (Z.min ep ed) in Hvd
    by (clear - Hsd; lia).
  rewrite <- Hvp, <- Hvd in Hv.
  set (Mp := fst (shl_align mp ep (Z.min ep ed))) in *.
  set (Md := fst (shl_align md ed (Z.min ep ed))) in *.
  set (ez := Z.min ep ed) in *.
  clear Hsp Hsd Hd Hle.
  destruct (Z.pos Mp - Z.pos Md) as [|delta|delta] eqn:Hdelta;
    [exact I| |clear - Hv Hdelta; lia].
  cbn [binary_normalize]. unfold binary_round.
  destruct (shl_align_value delta ez
              (fexp prec emax (Z.pos (digits2_pos delta) + ez)))
    as [Hs Hval].
  destruct (shl_align delta ez
              (fexp prec emax (Z.pos (digits2_pos delta) + ez)))
    as [mz ez'].
  cbn [fst snd] in *.
  assert (Hez : ez' <= ez) by (clear - Hs; lia).
  apply round_aux_below; [exact Hp | clear - Hez Hk2; lia |].
  split; [|discriminate]. cbn [shr_record_of_loc shr_m].
  split; [clear; lia|].
  rewrite Hval.
  replace (ep - ez') with ((ep - ez) + (ez - ez')) by (clear; lia).
  rewrite Z.pow_add_r by (clear - Hez Hk2; lia).
  rewrite Z.mul_assoc, <- Hvp.
  apply Z.mul_le_mono_nonneg_r;
    [apply Z.pow_nonneg; clear; lia | clear - Hdelta; lia].
Qed.
Lemma shr_bound_of_loc (m : Z) (l : location) (B : Z) :
  0 <= m <= B -> (l <> loc_Exact -> m < B) ->
  shr_bound (shr_record_of_loc m l) B.
Proof.
  intros Hm Hl. split; [rewrite shr_record_of_loc_m; exact Hm|].
  rewrite shr_record_of_loc_m.
  destruct l as [|[| |]]; cbn; intros H; try discriminate;
    apply Hl; discriminate.
Qed.

Lemma new_location_exact (n r : Z) :
  new_location n r <> loc_Exact -> r <> 0.
Proof.
  unfold new_location, new_location_even, new_location_odd.
  intros H ->. destruct (Z.even n); cbn in H; congruence.
Qed.

(** The magnitude of a smaller number is smaller. *)
Lemma SFleb_magnitude (m : positive) (e : Z) (m' : positive) (e' : Z) :
  bounded prec emax m e = true ->
  bounded prec emax m' e' = true ->
  SFleb (S754_finite false m e) (S754_finite false m' e') = true ->
  Zdigits2 (Z.pos m) + e <= Zdigits2 (Z.pos m') + e'.
Proof.
  intros Hx Hy Hle.
  apply bounded_inv in Hx as (Hcx & _ & Hminx & Hdx).
  apply bounded_inv in Hy as (Hcy & _ & Hminy & Hdy).
  apply SFleb_finite in Hle as [Hlt|[-> Hm]].
  - rewrite fexp_eq in Hcy. lia.
  - assert (H0 : 0 <= 0) by lia.
    assert (Hb : 0 <= Z.pos m <= Z.pos m' * 2 ^ 0) by lia.
    pose proof (Zdigits2_le (Z.pos m) m' 0 H0 Hb). lia.
Qed.

(** A quotient by a number that is not smaller is at most one. *)
Lemma SFdiv_below (m1 : positive) (e1 : Z) (m2 : positive) (e2 : Z) :
  bounded prec emax m1 e1 = true ->
  bounded prec emax m2 e2 = true ->
  SFleb (S754_finite false m1 e1) (S754_finite false m2 e2) = true ->
  below one_sf
    (SF64div (S754_finite false m1 e1) (S754_finite false m2 e2)).
Proof.
  intros Hx Hy Hle.
  pose proof (SFleb_magnitude m1 e1 m2 e2 Hx Hy Hle) as Hmag.
  unfold SF64div, SFdiv, SFdiv_core_binary. cbn [xorb].
  set (t := Zdigits2 (Z.pos m1) + e1 - (Zdigits2 (Z.pos m2) + e2)) in *.
  assert (Hf : fexp prec emax t <= -53)
    by (rewrite fexp_eq; clear - Hmag; lia).
  set (e' := Z.min (fexp prec emax t) (e1 - e2)) in *.
  assert (He' : e' <= -53) by (clear - Hf; lia).
  assert (He'' : e' <= e1 - e2) by (clear; lia).
  assert (Hk1 : e' + e2 <= e1) by (clear - He''; lia).
  assert (Hk2 : e' + e2 <= e2) by (clear - He'; lia).
  pose proof (SFleb_value m1 e1 m2 e2 (e' + e2) Hx Hy Hle Hk1 Hk2) as Hv.
  replace (e2 - (e' + e2)) with (- e') in Hv by (clear; lia).
  replace (e1 - (e' + e2)) with (e1 - e2 - e') in Hv by (clear; lia).
  set (s := e1 - e2 - e') in *.
  assert (Hs : 0 <= s) by (clear - He''; lia).
  set (m' := match s with
             | 0 => Z.pos m1
             | Z.pos _ => Z.shiftl (Z.pos m1) s
             | Z.neg _ => 0
             end).
  assert (Hm' : m' = Z.pos m1 * 2 ^ s).
  { unfold m'. destruct s as [|p|p] eqn:Es.
    - clear; lia.
    - apply Z.shiftl_mul_pow2. clear; lia.
    - clear - Hs; lia. }
  clearbody m'. subst m'.
  pose proof (Z.div_eucl_eq (Z.pos m1 * 2 ^ s) (Z.pos m2)) as Hdiv.
  pose proof (Z.mod_pos_bound (Z.pos m1 * 2 ^ s) (Z.pos m2)) as Hmod.
  unfold Z.modulo in Hmod.
  destruct (Z.div_eucl (Z.pos m1 * 2 ^ s) (Z.pos m2)) as [q r].
  assert (Hne : Z.pos m2 <> 0) by (clear; lia).
  specialize (Hdiv Hne).
  assert (Hpos : 0 < Z.pos m2) by (clear; lia).
  specialize (Hmod Hpos).
  assert (Hone : bounded prec emax 4503599627370496 (-52) = true)
    by (vm_compute; reflexivity).
  unfold one_sf.
  apply round_aux_below; [exact Hone | clear - He'; lia |].
  clear Hone Hx Hy Hle.
  rewrite pow2_52, <- Z.pow_add_r by (clear - He'; lia).
  replace (52 + (-52 - e')) with (- e') by (clear; lia).
  set (B := 2 ^ (- e')) in *.
  assert (HB : 0 < B) by (apply Z.pow_pos_nonneg; clear - He'; lia).
  assert (Hs0 : 0 < 2 ^ s) by (apply Z.pow_pos_nonneg; [clear; lia | exact Hs]).
  clearbody B. 
  apply shr_bound_of_loc.
  - clear - Hdiv Hmod Hv HB Hs0 Hpos. nia.
  - intros Hl. apply new_location_exact in Hl.
    clear - Hdiv Hmod Hv HB Hs0 Hpos Hl. nia.
Qed.

Lemma Prim2SF_infinity : Prim2SF infinity = S754_infinity false.
Proof. vm_compute. reflexivity. Qed.

Lemma Prim2SF_bounded (x : float) (s : bool) (m : positive) (e : Z) :
  Prim2SF x = S754_finite s m e -> bounded prec emax m e = true.
Proof.
  intros H. pose proof (Prim2SF_valid x) as Hv. rewrite H in Hv. exact Hv.
Qed.

Lemma float_finite_nonneg (x : float) :
  PrimFloat.leb 0%float x = true ->
  PrimFloat.ltb x infinity = true ->
  finite_nonneg (Prim2SF x).
Proof.
  rewrite FloatAxioms.leb_spec, FloatAxioms.ltb_spec, Prim2SF_zero,
    Prim2SF_infinity.
  destruct (Prim2SF x) as [[|]|[|]| |[|] m e]; cbn; intros H1 H2;
    try discriminate; exact I.
Qed.

Lemma SFleb_refl_finite (m : positive) (e : Z) :
  SFleb (S754_finite false m e) (S754_finite false m e) = true.
Proof. apply SFleb_finite. right. split; [reflexivity | apply Pos.le_refl]. Qed.

(** [pct / 100] is at most one. *)
Lemma float_div_below (pct : float) :
  PrimFloat.leb 0%float pct = true ->
  PrimFloat.leb pct 100%float = true ->
  below one_sf (Prim2SF (pct / 100)%float).
Proof.
  rewrite !FloatAxioms.leb_spec, FloatAxioms.div_spec, Prim2SF_zero,
    Prim2SF_hundred.
  pose proof (Prim2SF_bounded pct) as Hb.
  destruct (Prim2SF pct) as [[|]|[|]| |[|] m e]; intros H0 H100;
    try discriminate; try exact I.
  apply SFdiv_below; [eapply Hb; reflexivity | vm_compute; reflexivity
                     | exact H100].
Qed.

(** [price * q] is at most [price] when [q] is at most one. *)
Lemma float_mul_below (price q : float) :
  finite_nonneg (Prim2SF price) ->
  below one_sf (Prim2SF q) ->
  below (Prim2SF price) (Prim2SF (price * q)%float).
Proof.
  rewrite FloatAxioms.mul_spec.
  pose proof (Prim2SF_bounded price) as Hbp.
  pose proof (Prim2SF_bounded q) as Hbq.
  destruct (Prim2SF price) as [[|]|[|]| |[|] mp ep]; cbn [finite_nonneg];
    intros Hp; try contradiction;
    destruct (Prim2SF q) as [[|]|[|]| |[|] mq eq']; cbn [below];
    intros Hq; try contradiction; try exact I.
  apply SFmul_below; [eapply Hbp | eapply Hbq | exact Hq]; reflexivity.
Qed.

(** The smaller of a number at most [price] and a limit that is not
    negative is at most [price]. *)
Lemma float_min_below (price d limit : float) :
  below (Prim2SF price) (Prim2SF d) ->
  PrimFloat.leb 0%float limit = true ->
  below (Prim2SF price)
    (Prim2SF (if PrimFloat.ltb limit d then limit else d)).
Proof.
  intros Hd Hl. destruct (PrimFloat.ltb limit d) eqn:Hlt; [|exact Hd].
  rewrite FloatAxioms.ltb_spec in Hlt.
  rewrite FloatAxioms.leb_spec, Prim2SF_zero in Hl.
  destruct (Prim2SF limit) as [[|]|[|]| |[|] ml el]; cbn in Hl;
    try discriminate; try exact I;
    destruct (Prim2SF d) as [[|]|[|]| |[|] md ed]; cbn [below] in Hd;
    try contradiction; try discriminate.
  cbn [below].
  destruct (Prim2SF price) as [[|]|[|]| |[|] mp ep]; try discriminate;
    try reflexivity.
  apply SFltb_finite in Hlt. apply SFleb_finite in Hd. apply SFleb_finite.
  destruct Hlt as [H1|[-> H1]], Hd as [H2|[-> H2]].
  - left. lia.
  - left. exact H1.
  - left. exact H2.
  - right. split; [reflexivity|].
    apply Pos.lt_le_incl. eapply Pos.lt_le_trans; eassumption.
Qed.

(** [price - d] lies between zero and [price] when [d] is at most
    [price]. *)
Lemma float_sub_bounds (price d : float) :
  finite_nonneg (Prim2SF price) ->
  below (Prim2SF price) (Prim2SF d) ->
  PrimFloat.leb 0%float (price - d)%float = true /\
  PrimFloat.leb (price - d)%float price = true.
Proof.
  rewrite !FloatAxioms.leb_spec, FloatAxioms.sub_spec, Prim2SF_zero.
  pose proof (Prim2SF_bounded price) as Hbp.
  pose proof (Prim2SF_bounded d) as Hbd.
  destruct (Prim2SF price) as [[|]|[|]| |[|] mp ep]; cbn [finite_nonneg];
    intros Hp; try contradiction;
    destruct (Prim2SF d) as [[|]|[|]| |[|] md ed]; cbn [below];
    intros Hd; try contradiction; try discriminate;
    try (split; reflexivity).
  - split; [reflexivity | apply SFleb_refl_finite].
  - split; [reflexivity | apply SFleb_refl_finite].
  - assert (Hb : below (S754_finite false mp ep)
                   (SF64sub (S754_finite false mp ep)
                      (S754_finite false md ed)))
      by (apply SFsub_below; [eapply Hbp | eapply Hbd | exact Hd];
          reflexivity).
    destruct (SF64sub (S754_finite false mp ep) (S754_finite false md ed))
      as [[|]|[|]| |[|] mr er]; cbn [below] in Hb; try contradiction;
      split; try reflexivity; exact Hb.
Qed.

(** A limit that is not below zero is at least zero, or not a number. *)
Lemma float_not_negative (x : float) :
  PrimFloat.ltb x 0%float = false ->
  PrimFloat.leb 0%float x = true \/ Prim2SF x = S754_nan.
Proof.
  rewrite FloatAxioms.ltb_spec, FloatAxioms.leb_spec, Prim2SF_zero.
  destruct (Prim2SF x) as [[|]|[|]| |[|] m e]; cbn; intros H;
    try discriminate; auto.
Qed.

(** [min(d, limit)] for a limit that is not below zero: a limit that is
    not a number is never the smaller one. *)
Lemma float_py_min_below (price d limit : float) :
  below (Prim2SF price) (Prim2SF d) ->
  PrimFloat.ltb limit 0%float = false ->
  below (Prim2SF price) (Prim2SF (py_min d limit)).
Proof.
  intros Hd Hl. unfold py_min. cbn [ltb Number_float].
  destruct (float_not_negative limit Hl) as [H0|Hnan].
  - apply float_min_below; assumption.
  - assert (Hlt : PrimFloat.ltb limit d = false)
      by (rewrite FloatAxioms.ltb_spec, Hnan; reflexivity).
    rewrite Hlt. exact Hd.
Qed.

End Binary64.

(** ** The bounds of the result *)

(** C1, amended. For a finite price that is not negative, a percentage
    between 0 and 100 and a limit that is absent or not below zero, the
    call returns a result between 0 and the price.  The first part is for
    Python floats, with every operation rounded to binary64 and the
    comparisons of binary64; the second part is for exact arithmetic, where
    every price is finite. *)
Theorem calculate_discount_bounds :
  (forall (price discount_percent : float) (max_discount : option float),
     PrimFloat.leb 0%float price = true ->
     PrimFloat.ltb price infinity = true ->
     PrimFloat.leb 0%float discount_percent = true ->
     PrimFloat.leb discount_percent 100%float = true ->
     (forall limit, max_discount = Some limit ->
                    PrimFloat.ltb limit 0%float = false) ->
     exists r,
       calculate_discount price discount_percent max_discount = Ok r /\
       PrimFloat.leb 0%float r = true /\ PrimFloat.leb r price = true) /\
  (forall (price discount_percent : Q) (max_discount : option Q),
     (0 <= price)%Q ->
     (0 <= discount_percent)%Q -> (discount_percent <= 100)%Q ->
     (forall limit, max_discount = Some limit -> (0 <= limit)%Q) ->
     exists r,
       calculate_discount price discount_percent max_discount = Ok r /\
       (0 <= r)%Q /\ (r <= price)%Q).
Proof.
  split; [|exact calculate_discount_bounds_exact].
  intros price discount_percent max_discount Hp Hfin Hlo Hhi Hlimit.
  destruct float_literals as [H0 H100].
  rewrite (calculate_discount_valid price discount_percent max_discount).
  - eexists. split; [reflexivity|].
    rewrite H100. cbn [sub mul div Number_float].
    pose proof (float_finite_nonneg price Hp Hfin) as Hfn.
    pose proof (float_mul_below price _ Hfn
                  (float_div_below discount_percent Hlo Hhi)) as Hd.
    apply float_sub_bounds; [exact Hfn|].
    destruct max_discount as [limit|]; [|exact Hd].
    apply float_py_min_below; [exact Hd | apply Hlimit; reflexivity].
  - apply float_nonneg_not_neg, Hp.
  - rewrite H0, H100. cbn [leb Number_float]. rewrite Hlo, Hhi. reflexivity.
Qed.

Lemma calculate_discount_bounds_witness :
  (exists r : float,
     calculate_discount 100%float 50%float (Some 30%float) = Ok r /\
     PrimFloat.leb 0%float r = true /\ PrimFloat.leb r 100%float = true) /\
  (exists r : Q,
     calculate_discount 100%Q 50%Q (Some 30%Q) = Ok r /\
     (0 <= r)%Q /\ (r <= 100)%Q).
Proof.
  split.
  - apply (proj1 calculate_discount_bounds 100%float 50%float
             (Some 30%float)); try (vm_compute; reflexivity).
    intros limit [= <-]. vm_compute. reflexivity.
  - apply (proj2 calculate_discount_bounds 100%Q 50%Q (Some 30%Q));
      try (vm_compute; discriminate).
    intros limit [= <-]. vm_compute. discriminate.
Defined.
